(** * app_product: the catalogue models (Category, Brand, Product, Review)

    A shallow embedding of [app_product/models.py].  The four model classes
    become four modules; a model instance is a record of its declared fields,
    the tables of the database are finite maps from primary keys to rows, and
    code that raises is written in a small state-and-exception style: a method
    returns the instance and the store it leaves behind together with the
    exception it raised, if any.  Python [int] is [Z], Python [float] is the
    binary64 type of the kernel, and a text field is a [string] whose
    characters are the code points below 256. *)

From Stdlib Require Import ZArith QArith Floats Uint63 Ascii String List Lia.
From stdpp Require Import gmap strings list fin_maps.

Local Open Scope string_scope.
Local Open Scope Z_scope.

(** ** Text

    A [string] holds a text one code point per character, and its
    characters range over the code points below 256 (Latin-1).  Case
    mapping can leave that range and can turn one character into two, so
    what [str.capitalize] returns is a list of code points. *)

Definition code_point (c : ascii) : N := N_of_ascii c.

Fixpoint code_points (s : string) : list N :=
  match s with
  | EmptyString => []
  | String c rest => code_point c :: code_points rest
  end.

Definition is_ascii_char (c : ascii) : bool := (code_point c <? 128)%N.

Fixpoint is_ascii (s : string) : bool :=
  match s with
  | EmptyString => true
  | String c rest => is_ascii_char c && is_ascii rest
  end.

(** The upper-case form of an ASCII letter; every other character is its
    own image. *)
Definition upper_char (c : ascii) : ascii :=
  let n := nat_of_ascii c in
  if ((97 <=? n) && (n <=? 122))%nat then ascii_of_nat (n - 32) else c.

(** [str.lower] on one character: the letters A-Z and the letters from
    U+00C0 to U+00DE, the multiplication sign U+00D7 apart, move 32 code
    points up; every other character below 256 is its own image. *)
Definition lower_char (c : ascii) : ascii :=
  let n := nat_of_ascii c in
  if ((65 <=? n) && (n <=? 90)
      || (192 <=? n) && (n <=? 222) && negb (n =? 215))%nat
  then ascii_of_nat (n + 32) else c.

Fixpoint lower (s : string) : string :=
  match s with
  | EmptyString => EmptyString
  | String c rest => String (lower_char c) (lower rest)
  end.

(** The title-case form of one character, which [str.capitalize] gives the
    first character (CPython 3.8 and later): the sharp s U+00DF becomes the
    two letters [Ss], the micro sign U+00B5 and the y with diaeresis U+00FF
    become U+039C and U+0178, the letters a-z and the letters from U+00E0 to
    U+00FE, the division sign U+00F7 apart, move 32 code points down. *)
Definition title_char (c : ascii) : list N :=
  let n := code_point c in
  if (n =? 223)%N then [83; 115]%N
  else if (n =? 181)%N then [924]%N
  else if (n =? 255)%N then [376]%N
  else if ((97 <=? n) && (n <=? 122)
           || (224 <=? n) && (n <=? 254) && negb (n =? 247))%N
  then [n - 32]%N else [n].

(** [str.capitalize]: the first character in title case, the others in
    lower case. *)
Definition capitalize (s : string) : list N :=
  match s with
  | EmptyString => []
  | String c rest => title_char c ++ code_points (lower rest)
  end.

(** Capitalizing in the words of the specification: the first character
    in upper case, every other character in lower case, one for one. *)
Definition spec_capitalize (s : string) : string :=
  match s with
  | EmptyString => EmptyString
  | String c rest => String (upper_char c) (lower rest)
  end.

(** [enumerate(xs)]: each item paired with its position. *)
Definition enumerate {A} (xs : list A) : list (nat * A) :=
  zip (seq 0 (length xs)) xs.

(** The loop shared by [Category.__str__] and [Brand.__str__]:
    [for count, item in ...: if name == item[0]: return item[1]], and
    ['Unknown'] once the loop is exhausted. *)
Fixpoint scan_choices (name : string) (items : list (nat * (string * string))) : string :=
  match items with
  | [] => "Unknown"
  | (_, item) :: rest =>
      if String.eqb name (fst item) then snd item else scan_choices name rest
  end.

(** ** Field declarations *)

Inductive OnDelete := CASCADE | SET_NULL.

Record ForeignKey := { null : bool; on_delete : OnDelete }.

(** ** Model instances and tables

    One record per model class, holding the declared fields.  A [Review]
    instance also carries its primary key ([None] until it is first written)
    and the class attribute [is_cleaned], which belongs to the instance only:
    the row of a review in the database is a [ReviewRow].  Columns declared
    without [null=True] hold a value in every row, so [row_rate] is an
    integer while the attribute [Review_rate] may be [None]. *)

Record Category := { Category_name : string }.

Record Brand := { Brand_category : option nat; Brand_name : string }.

Record Product := {
  Product_brand : option nat;
  Product_title : string;
  Product_description : string;
  Product_image : string }.

Record Review := {
  Review_id : option nat;
  Review_product : option nat;
  Review_title : string;
  Review_description : string;
  Review_rate : option Z;
  is_cleaned : bool }.

Record ReviewRow := {
  row_product : option nat;
  row_title : string;
  row_description : string;
  row_rate : Z }.

(** A table: its rows by primary key and the sequence that numbers new rows. *)
Record Table (A : Type) := { rows : gmap nat A; next_pk : nat }.
Arguments rows {A} _.
Arguments next_pk {A} _.

Record Store := {
  categories : Table Category;
  brands : Table Brand;
  products : Table Product;
  reviews : Table ReviewRow }.

Definition empty_table {A} : Table A := {| rows := ∅; next_pk := 1 |}.

Definition empty_store : Store :=
  {| categories := empty_table; brands := empty_table;
     products := empty_table; reviews := empty_table |}.

(** ** Exceptions and results *)

Inductive Exception := TypeError | ValidationError | IntegrityError | DataError.

Inductive Result (A : Type) := Return (a : A) | Raise (e : Exception).
Arguments Return {A} a.
Arguments Raise {A} e.

(** ** The persistence layer

    [Model.save] and [Model.delete] are the framework's.  They are modelled
    as far as the declarations of [models.py] determine them: a write is
    refused when a column constraint that follows from a field declaration
    fails, and a delete applies the [on_delete] action of each foreign key
    that points to the deleted row. *)

(** Writing [row] under [pk]; without a key the sequence supplies one, and
    the write fails when that key is already taken. *)
Definition table_write {A} (pk : option nat) (row : A) (t : Table A)
  : Table A * Result nat :=
  match pk with
  | Some k => ({| rows := <[k := row]> (rows t); next_pk := next_pk t |}, Return k)
  | None =>
      let k := next_pk t in
      match rows t !! k with
      | Some _ => ({| rows := rows t; next_pk := S k |}, Raise IntegrityError)
      | None => ({| rows := <[k := row]> (rows t); next_pk := S k |}, Return k)
      end
  end.

Definition table_delete {A} (pk : nat) (t : Table A) : Table A :=
  {| rows := delete pk (rows t); next_pk := next_pk t |}.

(** The [on_delete] action of a foreign key [fk], read through [ref] and
    cleared by [clear], on the rows that point to [pk]. *)
Definition apply_on_delete {A} (fk : ForeignKey) (ref : A -> option nat)
    (clear : A -> A) (pk : nat) (t : Table A) : Table A :=
  match on_delete fk with
  | CASCADE =>
      {| rows := filter (fun kv => ref (snd kv) <> Some pk) (rows t);
         next_pk := next_pk t |}
  | SET_NULL =>
      {| rows := (fun row => if decide (ref row = Some pk) then clear row else row)
                   <$> rows t;
         next_pk := next_pk t |}
  end.

(** A foreign key column accepts [None] when declared [null=True], and a key
    of the table it points to. *)
Definition fk_ok {A} (fk : ForeignKey) (ref : option nat) (target : Table A) : bool :=
  match ref with
  | None => null fk
  | Some k => bool_decide (is_Some (rows target !! k))
  end.

(** ** Category *)

Module Category.
Definition PHONES := "ph".
Definition GAMING := "ga".
Definition COMPUTING := "co".
Definition CATEGORIES : list (string * string) :=
  [ (PHONES, "Phones"); (GAMING, "Gaming"); (COMPUTING, "Computing") ].

(** [name = models.CharField(max_length=2, choices=CATEGORIES)] *)
Definition name_max_length : nat := 2.

Definition __str__ (self : Category) : string :=
  scan_choices (Category_name self) (enumerate CATEGORIES).
End Category.

(** ** Brand *)

Module Brand.
Definition SAMSUNG := "sa".
Definition OPPO := "op".
Definition KONAMI := "ko".
Definition SONY := "so".
Definition DELL := "de".
Definition HP := "hp".
Definition BRANDS : list (string * string) :=
  [ (SAMSUNG, "SAMSUNG"); (OPPO, "OPPO"); (KONAMI, "KONAMI");
    (SONY, "SONY"); (DELL, "DELL"); (HP, "HP") ].

(** [category = models.ForeignKey(Category, null=True, on_delete=models.SET_NULL)] *)
Definition category : ForeignKey := {| null := true; on_delete := SET_NULL |}.
(** [name = models.CharField(max_length=2, choices=BRANDS)] *)
Definition name_max_length : nat := 2.

Definition __str__ (self : Brand) : string :=
  scan_choices (Brand_name self) (enumerate BRANDS).

Definition clear_category (b : Brand) : Brand :=
  {| Brand_category := None; Brand_name := Brand_name b |}.
End Brand.

(** ** Numbers

    [get_review_percentage] divides, multiplies and rounds Python floats.
    The operations it uses are gathered in a class with two instances:
    [binary64], the arithmetic the program runs on, and [exact], the same
    operations on rationals with no rounding but that of [round]. *)

Inductive PyNumber (F : Type) := PyInt (n : Z) | PyFloat (x : F).
Arguments PyInt {F} n.
Arguments PyFloat {F} x.

Class FloatOps (F : Type) := {
  of_int : Z -> F;
  fmul : F -> F -> F;
  fdiv : F -> F -> F;
  round1 : F -> F }.

(** The integer nearest to [a / b] for [0 < b], ties going to the even one. *)
Definition round_half_even (a b : Z) : Z :=
  let q := a / b in
  let r := a mod b in
  if 2 * r <? b then q
  else if b <? 2 * r then q + 1
  else if Z.even q then q else q + 1.

(** [int] to [float]; exact below [2^53]. *)
Definition float_of_int (n : Z) : float :=
  if n <? 0 then PrimFloat.opp (PrimFloat.of_uint63 (Uint63.of_Z (- n)))
  else PrimFloat.of_uint63 (Uint63.of_Z n).

(** [round(x, 1)] on a float: the decimal with one digit after the point
    that is nearest to the value [x] holds, ties to even, read back as the
    nearest float.  Infinities, NaN and zeros round to themselves, so does
    any [x] without a fractional part, and so does any [x] whose tenths
    exceed [2^53], the floats around it being further apart than a tenth. *)
Definition float_round1 (x : float) : float :=
  match Prim2SF x with
  | S754_finite s m e =>
      if 0 <=? e then x
      else
        let k := round_half_even (Z.pos m * 10) (2 ^ (- e)) in
        if k <? 2 ^ 53 then
          let r := PrimFloat.div (float_of_int k) (float_of_int 10) in
          if s then PrimFloat.opp r else r
        else x
  | _ => x
  end.

#[export] Instance binary64 : FloatOps float := {|
  of_int := float_of_int;
  fmul := PrimFloat.mul;
  fdiv := PrimFloat.div;
  round1 := float_round1 |}.

Definition Q_round1 (x : Q) : Q :=
  let y := (x * inject_Z 10)%Q in
  (round_half_even (Qnum y) (Z.pos (Qden y))) # 10.

#[export] Instance exact : FloatOps Q := {|
  of_int := inject_Z;
  fmul := Qmult;
  fdiv := Qdiv;
  round1 := Q_round1 |}.

(** [a / b] on two [int]s. *)
Definition truediv {F} `{FloatOps F} (a b : Z) : F := fdiv (of_int a) (of_int b).

(** ** Product *)

Module Product.
(** [brand = models.ForeignKey(Brand, null=True, on_delete=models.SET_NULL)] *)
Definition brand : ForeignKey := {| null := true; on_delete := SET_NULL |}.
(** [title = models.CharField(max_length=100)] *)
Definition title_max_length : nat := 100.

Definition clear_brand (p : Product) : Product :=
  {| Product_brand := None; Product_title := Product_title p;
     Product_description := Product_description p;
     Product_image := Product_image p |}.

(** [f'{self.title}'[:20].capitalize()] *)
Definition __str__ (self : Product) : list N :=
  capitalize (substring 0 20 (Product_title self)).

(** [self.review_set]: the rows of the reviews whose [product] is the
    product stored under [pk]. *)
Definition review_set (db : Store) (pk : nat) : list ReviewRow :=
  filter (fun r => row_product r = Some pk)
         (snd <$> map_to_list (rows (reviews db))).

(** [queryset.count()] *)
Definition count (qs : list ReviewRow) : Z := Z.of_nat (length qs).

(** [queryset.filter(rate__exact=k)] *)
Definition filter_rate (k : Z) (qs : list ReviewRow) : list ReviewRow :=
  filter (fun r => row_rate r = k) qs.

Definition get_count_total_reviews (db : Store) (pk : nat) : Z :=
  count (review_set db pk).

Definition total_rate (qs : list ReviewRow) : Z := count qs * 5.

Definition different_rate (qs : list ReviewRow) : Z :=
  let rate_1 := count (filter_rate 1 qs) * 1 in
  let rate_2 := count (filter_rate 2 qs) * 2 in
  let rate_3 := count (filter_rate 3 qs) * 3 in
  let rate_4 := count (filter_rate 4 qs) * 4 in
  let rate_5 := count (filter_rate 5 qs) * 5 in
  rate_1 + rate_2 + rate_3 + rate_4 + rate_5.

Definition get_review_percentage {F} `{FloatOps F} (db : Store) (pk : nat)
  : PyNumber F :=
  let qs := review_set db pk in
  let total_rate := total_rate qs in
  let different_rate := different_rate qs in
  if total_rate =? 0 then PyInt 0 (* except ZeroDivisionError: return 0 *)
  else
    let decimal : F := truediv different_rate total_rate in
    let percentage := fmul decimal (of_int 100) in
    let stars := fdiv percentage (of_int 20) in
    PyFloat (round1 stars).

(** The review score in the words of the specification:
    [round(average_rating, 1)], the mean of all individual ratings rounded
    to one decimal place. *)
Definition sum_of_ratings (qs : list ReviewRow) : Z :=
  foldr (fun r acc => row_rate r + acc) 0 qs.

Definition spec_review_score {F} `{FloatOps F} (db : Store) (pk : nat) : PyNumber F :=
  let qs := review_set db pk in
  PyFloat (round1 (truediv (sum_of_ratings qs) (count qs))).
End Product.

(** ** Review *)

Module Review.
(** [product = models.ForeignKey(Product, null=True, on_delete=models.CASCADE)] *)
Definition product : ForeignKey := {| null := true; on_delete := CASCADE |}.
(** [title = models.CharField(max_length=50)] *)
Definition title_max_length : nat := 50.
(** [rate = models.PositiveSmallIntegerField()] *)
Definition rate_min : Z := 0.
Definition rate_max : Z := 32767.

(** A method runs on the instance [self] and the database, and either
    returns or raises; what it assigned before raising stays assigned. *)
Definition M (A : Type) : Type := Review * Store -> (Review * Store) * Result A.

Definition ret {A} (a : A) : M A := fun s => (s, Return a).
Definition raise {A} (e : Exception) : M A := fun s => (s, Raise e).
Definition bind {A B} (m : M A) (f : A -> M B) : M B :=
  fun s => match m s with
           | (s', Return a) => f a s'
           | (s', Raise e) => (s', Raise e)
           end.
Definition get_self : M Review := fun s => (s, Return (fst s)).
Definition assign (f : Review -> Review) : M unit :=
  fun s => ((f (fst s), snd s), Return tt).

Notation "'let*' x := m 'in' k" := (bind m (fun x => k))
  (at level 10, x name, m at level 100, k at level 200).
Notation "m ;;; k" := (bind m (fun _ => k))
  (at level 100, k at level 200, right associativity).

Definition set_id (k : nat) (self : Review) : Review :=
  {| Review_id := Some k; Review_product := Review_product self;
     Review_title := Review_title self;
     Review_description := Review_description self;
     Review_rate := Review_rate self; is_cleaned := is_cleaned self |}.

Definition set_rate (r : Z) (self : Review) : Review :=
  {| Review_id := Review_id self; Review_product := Review_product self;
     Review_title := Review_title self;
     Review_description := Review_description self;
     Review_rate := Some r; is_cleaned := is_cleaned self |}.

Definition set_is_cleaned (b : bool) (self : Review) : Review :=
  {| Review_id := Review_id self; Review_product := Review_product self;
     Review_title := Review_title self;
     Review_description := Review_description self;
     Review_rate := Review_rate self; is_cleaned := b |}.

(** [self.rate < k] and [self.rate > k]: comparing [None] with an [int]
    raises [TypeError]. *)
Definition rate_lt (self : Review) (k : Z) : M bool :=
  match Review_rate self with
  | None => raise TypeError
  | Some r => ret (r <? k)
  end.

Definition rate_gt (self : Review) (k : Z) : M bool :=
  match Review_rate self with
  | None => raise TypeError
  | Some r => ret (k <? r)
  end.

(** The row the database is asked to write, or the error of the first
    column constraint that refuses it: [rate] is [NOT NULL], non-negative
    and a small integer, [title] has at most [max_length] characters, and
    [product] is empty or the key of a product. *)
Definition to_row (db : Store) (self : Review) : Result ReviewRow :=
  match Review_rate self with
  | None => Raise IntegrityError
  | Some r =>
      if r <? rate_min then Raise IntegrityError
      else if rate_max <? r then Raise DataError
      else if (title_max_length <? String.length (Review_title self))%nat
      then Raise DataError
      else if negb (fk_ok product (Review_product self) (products db))
      then Raise IntegrityError
      else Return {| row_product := Review_product self;
                     row_title := Review_title self;
                     row_description := Review_description self;
                     row_rate := r |}
  end.

Definition with_reviews (db : Store) (t : Table ReviewRow) : Store :=
  {| categories := categories db; brands := brands db;
     products := products db; reviews := t |}.

(** [super().save]: the framework's [Model.save]. *)
Definition super_save : M unit := fun s =>
  let '(self, db) := s in
  match to_row db self with
  | Raise e => (s, Raise e)
  | Return row =>
      let '(t, written) := table_write (Review_id self) row (reviews db) in
      match written with
      | Raise e => ((self, with_reviews db t), Raise e)
      | Return k => ((set_id k self, with_reviews db t), Return tt)
      end
  end.

Definition clean : M unit :=
  assign (set_is_cleaned true) ;;;
  let* self := get_self in
  match Review_rate self with
  | None => assign (set_rate 1)
  | Some r =>
      if r <? 1 then assign (set_rate 1)
      else if 5 <? r then assign (set_rate 5)
      else super_save
  end.

Section FullClean.
(** What the framework's validators of the declared fields say about an
    instance: [true] when they accept it. *)
Variable clean_fields : Review -> bool.

(** [self.full_clean()]: the framework validates the fields, then calls
    [clean] whatever the validators said, and raises [ValidationError]
    at the end if they objected. *)
Definition full_clean : M unit :=
  let* self := get_self in
  let accepted := clean_fields self in
  clean ;;;
  if accepted then ret tt else raise ValidationError.

Definition save : M unit :=
  let* self := get_self in
  if negb (is_cleaned self) then
    let* below := rate_lt self 1 in
    let* out_of_range := (if below then ret true else rate_gt self 5) in
    if out_of_range then full_clean else super_save
  else super_save.
End FullClean.

Definition delete (pk : nat) (db : Store) : Store :=
  with_reviews db (table_delete pk (reviews db)).
End Review.

(** ** Writing and deleting categories, brands and products

    These classes do not override [save] or [delete]; the framework's
    methods act on the tables directly. *)

Definition with_categories (db : Store) (t : Table Category) : Store :=
  {| categories := t; brands := brands db;
     products := products db; reviews := reviews db |}.

Definition with_brands (db : Store) (t : Table Brand) : Store :=
  {| categories := categories db; brands := t;
     products := products db; reviews := reviews db |}.

Definition with_products (db : Store) (t : Table Product) : Store :=
  {| categories := categories db; brands := brands db;
     products := t; reviews := reviews db |}.

Definition Category_save (pk : option nat) (c : Category) (db : Store)
  : Store * Result nat :=
  if (Category.name_max_length <? String.length (Category_name c))%nat
  then (db, Raise DataError)
  else
    let '(t, written) := table_write pk c (categories db) in
    (with_categories db t, written).

Definition Brand_save (pk : option nat) (b : Brand) (db : Store)
  : Store * Result nat :=
  if (Brand.name_max_length <? String.length (Brand_name b))%nat
  then (db, Raise DataError)
  else if negb (fk_ok Brand.category (Brand_category b) (categories db))
  then (db, Raise IntegrityError)
  else
    let '(t, written) := table_write pk b (brands db) in
    (with_brands db t, written).

Definition Product_save (pk : option nat) (p : Product) (db : Store)
  : Store * Result nat :=
  if (Product.title_max_length <? String.length (Product_title p))%nat
  then (db, Raise DataError)
  else if negb (fk_ok Product.brand (Product_brand p) (brands db))
  then (db, Raise IntegrityError)
  else
    let '(t, written) := table_write pk p (products db) in
    (with_products db t, written).

(** Deleting a category applies [Brand.category]'s action to the brands. *)
Definition Category_delete (pk : nat) (db : Store) : Store :=
  let db := with_brands db
    (apply_on_delete Brand.category Brand_category Brand.clear_category pk (brands db)) in
  with_categories db (table_delete pk (categories db)).

(** Deleting a brand applies [Product.brand]'s action to the products. *)
Definition Brand_delete (pk : nat) (db : Store) : Store :=
  let db := with_products db
    (apply_on_delete Product.brand Product_brand Product.clear_brand pk (products db)) in
  with_brands db (table_delete pk (brands db)).

(** Deleting a product applies [Review.product]'s action to the reviews.
    The action clears nothing: a review row is kept or removed whole. *)
Definition Product_delete (pk : nat) (db : Store) : Store :=
  let db := Review.with_reviews db
    (apply_on_delete Review.product row_product (fun r => r) pk (reviews db)) in
  with_products db (table_delete pk (products db)).

(** ** The stores a program can reach *)

Inductive Call :=
| CategorySave (pk : option nat) (c : Category)
| CategoryDelete (pk : nat)
| BrandSave (pk : option nat) (b : Brand)
| BrandDelete (pk : nat)
| ProductSave (pk : option nat) (p : Product)
| ProductDelete (pk : nat)
| ReviewSave (clean_fields : Review -> bool) (self : Review)
| ReviewFullClean (clean_fields : Review -> bool) (self : Review)
| ReviewClean (self : Review)
| ReviewDelete (pk : nat).

Definition run (c : Call) (db : Store) : Store :=
  match c with
  | CategorySave pk c => fst (Category_save pk c db)
  | CategoryDelete pk => Category_delete pk db
  | BrandSave pk b => fst (Brand_save pk b db)
  | BrandDelete pk => Brand_delete pk db
  | ProductSave pk p => fst (Product_save pk p db)
  | ProductDelete pk => Product_delete pk db
  | ReviewSave cf self => snd (fst (Review.save cf (self, db)))
  | ReviewFullClean cf self => snd (fst (Review.full_clean cf (self, db)))
  | ReviewClean self => snd (fst (Review.clean (self, db)))
  | ReviewDelete pk => Review.delete pk db
  end.

Definition run_all (cs : list Call) (db : Store) : Store :=
  foldl (fun db c => run c db) db cs.

Inductive reachable : Store -> Prop :=
| reachable_empty : reachable empty_store
| reachable_run c db : reachable db -> reachable (run c db).

(** Every foreign key that holds a value holds the key of a stored row. *)
Definition resolves {A B} (ref : A -> option nat) (t : Table A) (target : Table B) : Prop :=
  forall k row pk, rows t !! k = Some row -> ref row = Some pk ->
                   is_Some (rows target !! pk).

Record store_wf (db : Store) : Prop := {
  wf_brands : resolves Brand_category (brands db) (categories db);
  wf_products : resolves Product_brand (products db) (brands db);
  wf_reviews : resolves row_product (reviews db) (products db) }.

(** ** Stores used in the examples *)

Definition a_product : Product :=
  {| Product_brand := None; Product_title := "test";
     Product_description := "a product"; Product_image := "app_product/images/p.png" |}.

(** A fresh review of product [pk] rated [r], as a caller builds it. *)
Definition a_review (pk : option nat) (r : option Z) : Review :=
  {| Review_id := None; Review_product := pk; Review_title := "title";
     Review_description := "text"; Review_rate := r; is_cleaned := false |}.

Definition accept_all : Review -> bool := fun _ => true.

(** [n] reviews of product [pk] rated [r], each saved. *)
Definition save_reviews (n : nat) (pk : nat) (r : Z) : list Call :=
  repeat (ReviewSave accept_all (a_review (Some pk) (Some r))) n.

(** The store of the test [test_method_will_return_correct_number]. *)
Definition store_432 : Store :=
  run_all (ProductSave None a_product
           :: save_reviews 26 1 1 ++ save_reviews 6 1 2 ++ save_reviews 34 1 3
           ++ save_reviews 70 1 4 ++ save_reviews 296 1 5) empty_store.

(** Twenty reviews whose ratings add up to 57. *)
Definition store_20 : Store :=
  run_all (ProductSave None a_product
           :: save_reviews 3 1 2 ++ save_reviews 17 1 3) empty_store.

(** A product whose title is a sharp s, U+00DF, and nineteen letters. *)
Definition a_sharp_title : Product :=
  {| Product_brand := None;
     Product_title := String "223"%char "aaaaaaaaaaaaaaaaaaa";
     Product_description := EmptyString; Product_image := EmptyString |}.

(** A product whose title is longer than 20 characters. *)
Definition a_long_title : Product :=
  {| Product_brand := None; Product_title := "title TITLE title...extra";
     Product_description := EmptyString; Product_image := EmptyString |}.

(** What [full_clean] returns once [clean] has returned. *)
Definition validation_result (accepted : bool) : Result unit :=
  if accepted then Return tt else Raise ValidationError.

(** The review of the test
    [test_method_will_behave_default_if_is_clean_is_True_and_input_is_greater_than_5]. *)
Definition a_trusted_review (r : Z) : Review :=
  {| Review_id := None; Review_product := None; Review_title := "title";
     Review_description := "text"; Review_rate := Some r; is_cleaned := true |}.

(** A product nobody has reviewed. *)
Definition store_without_reviews : Store :=
  run (ProductSave None a_product) empty_store.

(** A product whose only review was saved with [is_cleaned] set and the
    rating 10. *)
Definition store_rated_10 : Store :=
  run_all [ ProductSave None a_product;
            ReviewSave accept_all
              {| Review_id := None; Review_product := Some 1%nat;
                 Review_title := "title"; Review_description := "text";
                 Review_rate := Some 10; is_cleaned := true |} ]
          empty_store.

(** The review stored in [store_rated_10], loaded again: a new instance
    of the row, with [is_cleaned] as the class sets it. *)
Definition a_reloaded_review : Review :=
  {| Review_id := Some 1%nat; Review_product := Some 1%nat;
     Review_title := "title"; Review_description := "text";
     Review_rate := Some 10; is_cleaned := false |}.

(** Two products: the first with two reviews, the second with one, and a
    review of no product. *)
Definition store_two_products : Store :=
  run_all [ ProductSave None a_product; ProductSave None a_product;
            ReviewSave accept_all (a_review (Some 1%nat) (Some 4));
            ReviewSave accept_all (a_review (Some 2%nat) (Some 5));
            ReviewSave accept_all (a_review (Some 1%nat) (Some 2));
            ReviewSave accept_all (a_review None (Some 3)) ]
          empty_store.

(** ** Validating categories and brands

    Neither class overrides [clean], so [full_clean] is the framework's
    validation of the declared fields.  [name] is declared with [choices]:
    a value that is the code of no choice is refused, the empty string
    included.  [Brand.category] is declared [null=True] but not
    [blank=True]: a brand without a category is refused, and so is one
    whose category is the key of no stored category. *)

Definition is_choice (name : string) (choices : list (string * string)) : bool :=
  existsb (fun choice => String.eqb name (fst choice)) choices.

Definition Category_full_clean (c : Category) : Result unit :=
  if is_choice (Category_name c) Category.CATEGORIES
  then Return tt else Raise ValidationError.

Definition Brand_full_clean (db : Store) (b : Brand) : Result unit :=
  match Brand_category b with
  | None => Raise ValidationError
  | Some k =>
      if bool_decide (is_Some (rows (categories db) !! k))
         && is_choice (Brand_name b) Brand.BRANDS
      then Return tt else Raise ValidationError
  end.

(** What the two tables have in common: codes pairwise distinct, labels
    pairwise distinct, and no label that reads ['Unknown']. *)
Definition table_ok (choices : list (string * string)) : Prop :=
  NoDup (map fst choices) /\ NoDup (map snd choices) /\
  ~ In "Unknown" (map snd choices).

(** ** More instances for the examples *)

(** [product.title = text] *)
Definition Product_with_title (text : string) (p : Product) : Product :=
  {| Product_brand := Product_brand p; Product_title := text;
     Product_description := Product_description p;
     Product_image := Product_image p |}.

Definition reject_all : Review -> bool := fun _ => false.

(** A review whose title has 52 characters, as in the test
    [test_attribute_raises_if_input_pass_max_length]. *)
Definition a_review_with_long_title : Review :=
  {| Review_id := None; Review_product := None;
     Review_title := "testtesttesttesttesttesttesttesttesttesttesttesttest";
     Review_description := "text"; Review_rate := Some 3; is_cleaned := false |}.

(** A category with two brands, a brand of no category, and a product of
    the first brand with one review. *)
Definition store_with_brands : Store :=
  run_all [ CategorySave None {| Category_name := "ph" |};
            BrandSave None {| Brand_category := Some 1%nat; Brand_name := "sa" |};
            BrandSave None {| Brand_category := Some 1%nat; Brand_name := "op" |};
            BrandSave None {| Brand_category := None; Brand_name := "hp" |};
            ProductSave None
              {| Product_brand := Some 1%nat; Product_title := "galaxy";
                 Product_description := "a phone";
                 Product_image := "app_product/images/g.png" |};
            ReviewSave accept_all (a_review (Some 1%nat) (Some 5)) ]
          empty_store.

(** * Properties *)

(** ** Label resolution *)

Lemma enumerate_items {A} (xs : list A) : map snd (enumerate xs) = xs.
Proof.
  unfold enumerate. apply (snd_zip (seq 0 (length xs)) xs).
  rewrite length_seq. reflexivity.
Qed.

(** The scan returns the label of the first pair whose code is the name. *)
Lemma scan_choices_found name label items :
  NoDup (map (fun it => fst (snd it)) items) ->
  In (name, label) (map snd items) ->
  scan_choices name items = label.
Proof.
  induction items as [|[count [code lab]] rest IH]; simpl; intros Hnd Hin.
  - contradiction.
  - apply NoDup_cons in Hnd as [Hfresh Hnd].
    destruct (String.eqb_spec name code) as [->|Hne].
    + destruct Hin as [Heq|Hin]; [congruence|].
      exfalso. apply Hfresh. apply list_elem_of_In.
      apply in_map_iff in Hin as [it [Hit Hin]].
      apply in_map_iff. exists it. split; [|exact Hin].
      rewrite Hit. reflexivity.
    + destruct Hin as [Heq|Hin]; [congruence|]. apply IH; assumption.
Qed.

Lemma scan_choices_unknown name items :
  (forall code label, In (code, label) (map snd items) -> name <> code) ->
  scan_choices name items = "Unknown".
Proof.
  induction items as [|[count [code lab]] rest IH]; simpl; intros Hno.
  - reflexivity.
  - destruct (String.eqb_spec name code) as [->|Hne].
    + exfalso. apply (Hno code lab); auto.
    + apply IH. intros c l Hin. apply (Hno c l). auto.
Qed.

Lemma CATEGORIES_codes_distinct :
  NoDup (map (fun it => fst (snd it)) (enumerate Category.CATEGORIES)).
Proof. apply (bool_decide_unpack _). vm_compute. reflexivity. Qed.

Lemma BRANDS_codes_distinct :
  NoDup (map (fun it => fst (snd it)) (enumerate Brand.BRANDS)).
Proof. apply (bool_decide_unpack _). vm_compute. reflexivity. Qed.

(** C6: for every category and every brand, [__str__] returns the label
    paired with the stored code when the code is one of the enumerated
    codes (['ph'] gives ['Phones'], ['sa'] gives ['SAMSUNG']), and the
    string ['Unknown'] when the stored code is none of them. *)
Theorem label_resolution (c : Category) (b : Brand) :
  (forall code label, In (code, label) Category.CATEGORIES ->
     Category_name c = code -> Category.__str__ c = label) /\
  ((forall code label, In (code, label) Category.CATEGORIES ->
      Category_name c <> code) -> Category.__str__ c = "Unknown") /\
  (forall code label, In (code, label) Brand.BRANDS ->
     Brand_name b = code -> Brand.__str__ b = label) /\
  ((forall code label, In (code, label) Brand.BRANDS ->
      Brand_name b <> code) -> Brand.__str__ b = "Unknown") /\
  Category.__str__ {| Category_name := "ph" |} = "Phones" /\
  Brand.__str__ {| Brand_category := None; Brand_name := "sa" |} = "SAMSUNG".
Proof.
  repeat split; try reflexivity.
  - intros code label Hin Hname. unfold Category.__str__.
    apply scan_choices_found; [apply CATEGORIES_codes_distinct|].
    rewrite enumerate_items, Hname. exact Hin.
  - intros Hno. unfold Category.__str__. apply scan_choices_unknown.
    rewrite enumerate_items. exact Hno.
  - intros code label Hin Hname. unfold Brand.__str__.
    apply scan_choices_found; [apply BRANDS_codes_distinct|].
    rewrite enumerate_items, Hname. exact Hin.
  - intros Hno. unfold Brand.__str__. apply scan_choices_unknown.
    rewrite enumerate_items. exact Hno.
Qed.

Lemma label_resolution_witness :
  Category.__str__ {| Category_name := "ga" |} = "Gaming" /\
  Category.__str__ {| Category_name := "xx" |} = "Unknown" /\
  Brand.__str__ {| Brand_category := Some 1%nat; Brand_name := "hp" |} = "HP" /\
  Brand.__str__ {| Brand_category := None; Brand_name := EmptyString |} = "Unknown".
Proof.
  destruct (label_resolution {| Category_name := "ga" |}
              {| Brand_category := Some 1%nat; Brand_name := "hp" |})
    as (Hc & _ & Hb & _).
  destruct (label_resolution {| Category_name := "xx" |}
              {| Brand_category := None; Brand_name := EmptyString |})
    as (_ & Hcu & _ & Hbu & _).
  split; [apply (Hc "ga" "Gaming"); [simpl; tauto | reflexivity]|].
  split; [apply Hcu; intros code label Hin Heq; simpl in Heq; subst code;
          cbv in Hin; intuition discriminate|].
  split; [apply (Hb "hp" "HP"); [simpl; tauto | reflexivity]|].
  apply Hbu; intros code label Hin Heq; simpl in Heq; subst code;
    cbv in Hin; intuition discriminate.
Defined.


(** ** The display string of a product *)

Lemma lower_length s : String.length (lower s) = String.length s.
Proof. induction s; simpl; congruence. Qed.

Lemma lower_get s i : String.get i (lower s) = lower_char <$> String.get i s.
Proof.
  revert i; induction s as [|c s IH]; intros [|i]; simpl; auto.
Qed.

Lemma substring_prefix_length n s :
  String.length (substring 0 n s) = Nat.min n (String.length s).
Proof.
  revert s; induction n as [|n IH]; intros [|c s]; simpl; auto.
Qed.

Lemma substring_prefix_get n s i :
  String.get i (substring 0 n s) = if (i <? n)%nat then String.get i s else None.
Proof.
  revert s i; induction n as [|n IH]; intros [|c s] [|i]; simpl; auto.
  destruct (S i <? S n)%nat; reflexivity.
Qed.

Lemma spec_capitalize_length s :
  String.length (spec_capitalize s) = String.length s.
Proof. destruct s; simpl; [|rewrite lower_length]; reflexivity. Qed.

Lemma spec_capitalize_get s i :
  String.get i (spec_capitalize s)
  = (if decide (i = 0%nat) then upper_char else lower_char) <$> String.get i s.
Proof. destruct s, i; simpl; auto using lower_get. Qed.

Lemma code_points_length s : length (code_points s) = String.length s.
Proof. induction s; simpl; congruence. Qed.

Lemma code_points_lookup s i :
  code_points s !! i = code_point <$> String.get i s.
Proof. revert i; induction s as [|c s IH]; intros [|i]; simpl; auto. Qed.

(** On an ASCII character title case is upper case. *)
Lemma title_char_ascii c :
  is_ascii_char c = true -> title_char c = [code_point (upper_char c)].
Proof.
  destruct c as [[] [] [] [] [] [] [] []]; vm_compute; intros H;
    first [discriminate H | reflexivity].
Qed.

Lemma capitalize_ascii s :
  is_ascii s = true -> capitalize s = code_points (spec_capitalize s).
Proof.
  destruct s as [|c s]; simpl; [reflexivity|].
  intros [Hc _]%andb_prop. rewrite (title_char_ascii c Hc). reflexivity.
Qed.

(** C10 fails beyond ASCII: the title made of a sharp s and nineteen
    letters [a] has 20 characters, and its display string has 21, [Ss]
    followed by the nineteen letters. *)
Lemma Product_str_of_sharp_s_title :
  String.length (Product_title a_sharp_title) = 20%nat /\
  length (Product.__str__ a_sharp_title) = 21%nat /\
  Product.__str__ a_sharp_title
  = code_points "Ssaaaaaaaaaaaaaaaaaaa" /\
  ~ (length (Product.__str__ a_sharp_title)
     = Nat.min 20 (String.length (Product_title a_sharp_title))).
Proof. repeat split; try reflexivity. vm_compute. discriminate. Qed.

(** C10, amended: for every product whose title has only ASCII characters
    among its first 20, [__str__] is those first 20 characters with the
    first in upper case and every later one in lower case; a longer title
    is cut at 20 characters. *)
Theorem Product_str_capitalized_prefix (p : Product) :
  let s := Product.__str__ p in
  let t := Product_title p in
  is_ascii (substring 0 20 t) = true ->
  s = code_points (spec_capitalize (substring 0 20 t)) /\
  length s = Nat.min 20 (String.length t) /\
  s !! 0%nat = code_point <$> (upper_char <$> String.get 0 t) /\
  (forall i, (0 < i < 20)%nat ->
     s !! i = code_point <$> (lower_char <$> String.get i t)) /\
  (forall i, (20 <= i)%nat -> s !! i = None).
Proof.
  intros s t Hascii. subst s. unfold Product.__str__. fold t.
  rewrite (capitalize_ascii _ Hascii). split; [reflexivity|].
  rewrite code_points_length, spec_capitalize_length, substring_prefix_length.
  split; [reflexivity|]. split; [|split]; [| intros i Hi ..];
    rewrite code_points_lookup, spec_capitalize_get, substring_prefix_get.
  - reflexivity.
  - destruct (Nat.ltb_spec i 20); [|lia]. case_decide; [lia|reflexivity].
  - destruct (Nat.ltb_spec i 20); [lia|]. reflexivity.
Qed.

Lemma Product_str_capitalized_prefix_witness :
  Product.__str__ a_long_title = code_points "Title title title..." /\
  Product.__str__ a_long_title !! 6%nat = Some 116%N /\
  Product.__str__ a_long_title !! 20%nat = None.
Proof.
  destruct (Product_str_capitalized_prefix a_long_title eq_refl)
    as (_ & _ & _ & Hin & Hout).
  split; [reflexivity|]. split.
  - rewrite (Hin 6%nat); [reflexivity | lia].
  - apply (Hout 20%nat). lia.
Defined.

(** ** Saving a review *)

Ltac run_method :=
  unfold Review.save, Review.full_clean, Review.clean, Review.bind,
    Review.get_self, Review.assign, Review.rate_lt, Review.rate_gt,
    Review.ret, Review.raise; simpl.

(** What [super().save] leaves behind: the instance keeps its rating, and
    any row that is new or changed is the row of that instance. *)
Lemma super_save_rate self db :
  Review_rate (fst (fst (Review.super_save (self, db)))) = Review_rate self.
Proof.
  unfold Review.super_save.
  destruct (Review.to_row db self) as [row|e]; [|reflexivity].
  destruct (table_write (Review_id self) row (reviews db)) as [t [k|e]];
    reflexivity.
Qed.

Lemma to_row_rate db self row :
  Review.to_row db self = Return row -> Review_rate self = Some (row_rate row).
Proof.
  unfold Review.to_row. destruct (Review_rate self) as [r|]; [|discriminate].
  repeat match goal with |- context [if ?b then _ else _] => destruct b end;
    try discriminate.
  intros [= <-]. reflexivity.
Qed.

Lemma table_write_rows {A} pk (row : A) t k r :
  rows (fst (table_write pk row t)) !! k = Some r ->
  rows t !! k = Some r \/ r = row.
Proof.
  unfold table_write. destruct pk as [j|].
  - simpl. rewrite lookup_insert. case_decide; [intros [= <-]; auto | auto].
  - destruct (rows t !! next_pk t) eqn:E; simpl; [auto|].
    rewrite lookup_insert. case_decide; [intros [= <-]; auto | auto].
Qed.

Lemma super_save_rows self db k r :
  rows (reviews (snd (fst (Review.super_save (self, db))))) !! k = Some r ->
  rows (reviews db) !! k = Some r \/ Review_rate self = Some (row_rate r).
Proof.
  unfold Review.super_save.
  destruct (Review.to_row db self) as [row|e] eqn:Hrow; [|simpl; auto].
  apply to_row_rate in Hrow.
  pose proof (table_write_rows (Review_id self) row (reviews db) k r) as Hw.
  destruct (table_write (Review_id self) row (reviews db)) as [t [j|e]];
    simpl in *; intros Hk; destruct (Hw Hk) as [?| ->]; auto.
Qed.

(** The three ways through [save] for an instance not yet cleaned. *)
Lemma save_in_range clean_fields self db r :
  Review_rate self = Some r -> is_cleaned self = false -> 1 <= r <= 5 ->
  Review.save clean_fields (self, db) = Review.super_save (self, db).
Proof.
  intros Hrate Hflag Hr. run_method. rewrite Hflag, Hrate. simpl.
  destruct (Z.ltb_spec r 1); [lia|]. simpl.
  destruct (Z.ltb_spec 5 r); [lia|]. reflexivity.
Qed.

Lemma save_below clean_fields self db r :
  Review_rate self = Some r -> is_cleaned self = false -> r < 1 ->
  Review.save clean_fields (self, db)
  = ((Review.set_rate 1 (Review.set_is_cleaned true self), db),
     validation_result (clean_fields self)).
Proof.
  intros Hrate Hflag Hr. run_method. rewrite Hflag, Hrate. simpl.
  destruct (Z.ltb_spec r 1); [|lia]. simpl. rewrite Hrate.
  destruct (Z.ltb_spec r 1); [|lia]. simpl.
  destruct (clean_fields self); reflexivity.
Qed.

Lemma save_above clean_fields self db r :
  Review_rate self = Some r -> is_cleaned self = false -> 5 < r ->
  Review.save clean_fields (self, db)
  = ((Review.set_rate 5 (Review.set_is_cleaned true self), db),
     validation_result (clean_fields self)).
Proof.
  intros Hrate Hflag Hr. run_method. rewrite Hflag, Hrate. simpl.
  destruct (Z.ltb_spec r 1); [lia|]. simpl.
  destruct (Z.ltb_spec 5 r); [|lia]. simpl. rewrite Hrate.
  destruct (Z.ltb_spec r 1); [lia|].
  destruct (Z.ltb_spec 5 r); [|lia]. simpl.
  destruct (clean_fields self); reflexivity.
Qed.

(** X18: for every integer rating [r], [save] on an instance whose
    [is_cleaned] is [False] leaves a rating in [1, 5] in the [rate]
    attribute of the instance: [r] itself when [1 <= r <= 5], [1] when
    [r < 1] and [5] when [r > 5]; and every row the call wrote or changed
    has its rating in [1, 5]. *)
Theorem save_normalizes_rate (clean_fields : Review -> bool)
    (self : Review) (db : Store) (r : Z) :
  Review_rate self = Some r ->
  is_cleaned self = false ->
  let self' := fst (fst (Review.save clean_fields (self, db))) in
  let db' := snd (fst (Review.save clean_fields (self, db))) in
  (exists r', Review_rate self' = Some r' /\ 1 <= r' <= 5 /\
     (1 <= r <= 5 -> r' = r) /\ (r < 1 -> r' = 1) /\ (5 < r -> r' = 5)) /\
  (forall k row, rows (reviews db') !! k = Some row ->
     rows (reviews db) !! k <> Some row -> 1 <= row_rate row <= 5).
Proof.
  intros Hrate Hflag self' db'. subst self' db'.
  destruct (Z.lt_ge_cases r 1) as [Hlt|Hge];
    [|destruct (Z.lt_ge_cases 5 r) as [Hgt|Hle]].
  - rewrite (save_below _ _ _ r) by assumption. simpl.
    split; [exists 1; repeat split; lia | congruence].
  - rewrite (save_above _ _ _ r) by assumption. simpl.
    split; [exists 5; repeat split; lia | congruence].
  - rewrite (save_in_range _ _ _ r) by (auto; lia). split.
    + exists r. rewrite super_save_rate. repeat split; auto; lia.
    + intros k row Hk Hnew. apply super_save_rows in Hk as [Hk|Hk];
        [contradiction|]. rewrite Hrate in Hk. injection Hk as ->. lia.
Qed.

Lemma save_normalizes_rate_witness :
  Review_rate (fst (fst (Review.save accept_all
     (a_review None (Some 10), empty_store)))) = Some 5 /\
  Review_rate (fst (fst (Review.save accept_all
     (a_review None (Some (-3)), empty_store)))) = Some 1 /\
  Review_rate (fst (fst (Review.save accept_all
     (a_review None (Some 4), empty_store)))) = Some 4.
Proof.
  pose proof (save_normalizes_rate accept_all (a_review None (Some 10))
                empty_store 10 eq_refl eq_refl) as [(r1 & H1 & _ & _ & _ & H1') _].
  pose proof (save_normalizes_rate accept_all (a_review None (Some (-3)))
                empty_store (-3) eq_refl eq_refl) as [(r2 & H2 & _ & _ & H2' & _) _].
  pose proof (save_normalizes_rate accept_all (a_review None (Some 4))
                empty_store 4 eq_refl eq_refl) as [(r3 & H3 & _ & H3' & _) _].
  rewrite H1, H2, H3, H1', H2', H3' by lia. auto.
Defined.

(** C1, at the inputs where the code departs from it: with a rating
    below 1 or above 5 and [is_cleaned] still [False], [save] clamps the
    [rate] attribute of the instance and stores nothing.  The database
    is left as it was, so a review not yet stored stays unstored and a
    stored rating stays what it was; the instance gets no key; and [save]
    returns or raises [ValidationError] as the validators of the fields
    decide. *)
Theorem save_out_of_range_stores_nothing (clean_fields : Review -> bool)
    (self : Review) (db : Store) (r : Z) :
  Review_rate self = Some r ->
  is_cleaned self = false ->
  r < 1 \/ 5 < r ->
  let out := Review.save clean_fields (self, db) in
  snd (fst out) = db /\
  Review_id (fst (fst out)) = Review_id self /\
  (exists c, Review_rate (fst (fst out)) = Some c /\
             (r < 1 -> c = 1) /\ (5 < r -> c = 5)) /\
  snd out = validation_result (clean_fields self).
Proof.
  intros Hrate Hflag [Hlt|Hgt] out; subst out.
  - rewrite (save_below _ _ _ r) by assumption. simpl.
    repeat split; try reflexivity. exists 1. repeat split; lia.
  - rewrite (save_above _ _ _ r) by assumption. simpl.
    repeat split; try reflexivity. exists 5. repeat split; lia.
Qed.

Lemma save_out_of_range_stores_nothing_witness :
  (let out := Review.save accept_all (a_review (Some 1%nat) (Some 10),
                                      store_without_reviews) in
   Review_rate (fst (fst out)) = Some 5 /\
   Review_id (fst (fst out)) = None /\
   rows (reviews (snd (fst out))) = ∅) /\
  (let out := Review.save accept_all (a_reloaded_review, store_rated_10) in
   Review_rate (fst (fst out)) = Some 5 /\
   row_rate <$> rows (reviews (snd (fst out))) !! 1%nat = Some 10).
Proof.
  destruct (save_out_of_range_stores_nothing accept_all
              (a_review (Some 1%nat) (Some 10)) store_without_reviews 10
              eq_refl eq_refl ltac:(right; lia)) as (Hdb & Hid & _ & _).
  destruct (save_out_of_range_stores_nothing accept_all a_reloaded_review
              store_rated_10 10 eq_refl eq_refl ltac:(right; lia))
    as (Hdb' & _ & _ & _).
  split; (split; [reflexivity|]).
  - split; [exact Hid | rewrite Hdb; reflexivity].
  - rewrite Hdb'. reflexivity.
Defined.

(** C2, at the input where the code departs from it: with no rating and
    [is_cleaned] still [False], [save] raises [TypeError] on its own
    comparison [self.rate < 1], before any validation, and leaves the
    instance and the database as they were; [clean], called on the same
    instance, does take the missing rating for one below the minimum and
    sets it to [1] without raising. *)
Theorem save_without_rate_raises (clean_fields : Review -> bool)
    (self : Review) (db : Store) :
  Review_rate self = None ->
  is_cleaned self = false ->
  Review.save clean_fields (self, db) = ((self, db), Raise TypeError) /\
  Review.clean (self, db)
  = ((Review.set_rate 1 (Review.set_is_cleaned true self), db), Return tt).
Proof.
  intros Hrate Hflag. split; run_method.
  - rewrite Hflag, Hrate. reflexivity.
  - rewrite Hrate. reflexivity.
Qed.

Lemma save_without_rate_raises_witness :
  snd (Review.save accept_all (a_review (Some 1%nat) None, store_20))
  = Raise TypeError.
Proof.
  destruct (save_without_rate_raises accept_all (a_review (Some 1%nat) None)
              store_20 eq_refl eq_refl) as [-> _].
  reflexivity.
Defined.

(** C3: for every review whose [is_cleaned] is [True], [save] goes straight
    to the underlying write with the instance as it is: nothing is
    validated, the rating of the instance is unchanged whether or not it
    lies in [1, 5], and when the write succeeds the row stored under the
    key of the instance carries that same rating. *)
Theorem save_trusted_path (clean_fields : Review -> bool)
    (self : Review) (db : Store) :
  is_cleaned self = true ->
  let out := Review.save clean_fields (self, db) in
  out = Review.super_save (self, db) /\
  Review_rate (fst (fst out)) = Review_rate self /\
  (snd out = Return tt ->
   exists k row, Review_id (fst (fst out)) = Some k /\
     rows (reviews (snd (fst out))) !! k = Some row /\
     Review_rate self = Some (row_rate row)).
Proof.
  intros Hflag out.
  assert (Hout : out = Review.super_save (self, db)).
  { subst out. run_method. rewrite Hflag. reflexivity. }
  rewrite Hout. split; [reflexivity|]. split; [apply super_save_rate|].
  unfold Review.super_save.
  destruct (Review.to_row db self) as [row|e] eqn:Hrow; [|discriminate].
  apply to_row_rate in Hrow.
  unfold table_write.
  destruct (Review_id self) as [j|]; simpl.
  - intros _. exists j, row. rewrite lookup_insert_eq. auto.
  - destruct (rows (reviews db) !! next_pk (reviews db)); simpl; [discriminate|].
    intros _. exists (next_pk (reviews db)), row. rewrite lookup_insert_eq. auto.
Qed.

Lemma save_trusted_path_witness :
  let out := Review.save accept_all (a_trusted_review 10, empty_store) in
  Review_rate (fst (fst out)) = Some 10 /\
  row_rate <$> rows (reviews (snd (fst out))) !! 1%nat = Some 10.
Proof.
  destruct (save_trusted_path accept_all (a_trusted_review 10) empty_store
              eq_refl) as (_ & Hrate & _).
  split; [exact Hrate | reflexivity].
Defined.

(** ** The review score *)

(** C7: for every product with no review, [get_review_percentage] returns
    the integer [0], the division by zero being caught, and
    [get_count_total_reviews] returns [0]. *)
Theorem no_reviews_score_zero {F} `{FloatOps F} (db : Store) (pk : nat) :
  Product.review_set db pk = [] ->
  Product.get_review_percentage (F:=F) db pk = PyInt 0 /\
  Product.get_count_total_reviews db pk = 0.
Proof.
  intros Hnone.
  unfold Product.get_review_percentage, Product.get_count_total_reviews,
    Product.total_rate, Product.count.
  rewrite Hnone. split; reflexivity.
Qed.

Lemma no_reviews_score_zero_witness :
  rows (products store_without_reviews) !! 1%nat = Some a_product /\
  Product.get_review_percentage (F:=float) store_without_reviews 1 = PyInt 0 /\
  Product.get_count_total_reviews store_without_reviews 1 = 0.
Proof.
  split; [reflexivity|].
  apply (no_reviews_score_zero (F:=float) store_without_reviews 1).
  reflexivity.
Defined.

(** C5: with 26 reviews rated 1, 6 rated 2, 34 rated 3, 70 rated 4 and 296
    rated 5 on one product, 432 in all, [get_review_percentage] returns the
    float 4.4 (the binary64 number nearest to 4.4, [0x1.199999999999ap+2]);
    the weighted sum is 1900 out of 2160, and exact arithmetic gives 4.4
    as well. *)
Theorem review_score_of_432_reviews :
  Product.get_count_total_reviews store_432 1 = 432 /\
  Product.count <$> ((fun k => Product.filter_rate k (Product.review_set store_432 1))
                     <$> [1; 2; 3; 4; 5]) = [26; 6; 34; 70; 296] /\
  Product.different_rate (Product.review_set store_432 1) = 1900 /\
  Product.total_rate (Product.review_set store_432 1) = 2160 /\
  Product.get_review_percentage (F:=float) store_432 1
  = PyFloat 0x1.199999999999ap+2%float /\
  Product.get_review_percentage (F:=Q) store_432 1 = PyFloat (44 # 10).
Proof. repeat split; vm_compute; reflexivity. Qed.

(** [round_half_even] depends on the quotient only. *)
Lemma round_half_even_scale a b c :
  0 < b -> 0 < c -> round_half_even (a * c) (b * c) = round_half_even a b.
Proof.
  intros Hb Hc. unfold round_half_even.
  rewrite Z.div_mul_cancel_r, Z.mul_mod_distr_r by lia.
  destruct (Z.ltb_spec (2 * (a mod b * c)) (b * c)),
           (Z.ltb_spec (2 * (a mod b)) b); try nia; try reflexivity.
  destruct (Z.ltb_spec (b * c) (2 * (a mod b * c))),
           (Z.ltb_spec b (2 * (a mod b))); try nia; reflexivity.
Qed.

Lemma round_half_even_ratio a1 b1 a2 b2 :
  0 < b1 -> 0 < b2 -> a1 * b2 = a2 * b1 ->
  round_half_even a1 b1 = round_half_even a2 b2.
Proof.
  intros H1 H2 Heq.
  rewrite <- (round_half_even_scale a1 b1 b2), <- (round_half_even_scale a2 b2 b1)
    by assumption.
  rewrite Heq, (Z.mul_comm b1 b2). reflexivity.
Qed.

Lemma Q_round1_comp (x y : Q) : (x == y)%Q -> Q_round1 x = Q_round1 y.
Proof.
  intros Heq. unfold Q_round1. f_equal.
  apply round_half_even_ratio; try reflexivity.
  assert (H : (x * inject_Z 10 == y * inject_Z 10)%Q) by (rewrite Heq; reflexivity).
  exact H.
Qed.

(** With every rating in 1..5, the five weighted counts add up to the sum
    of the ratings. *)
Lemma different_rate_cons r qs :
  1 <= row_rate r <= 5 ->
  Product.different_rate (r :: qs) = row_rate r + Product.different_rate qs.
Proof.
  intros Hr. unfold Product.different_rate, Product.filter_rate, Product.count.
  rewrite !filter_cons.
  assert (Hcases : row_rate r = 1 \/ row_rate r = 2 \/ row_rate r = 3 \/
                   row_rate r = 4 \/ row_rate r = 5) by lia.
  destruct Hcases as [E|[E|[E|[E|E]]]]; rewrite E;
    repeat case_decide; try lia; simpl length; lia.
Qed.

Lemma different_rate_sum qs :
  Forall (fun r => 1 <= row_rate r <= 5) qs ->
  Product.different_rate qs = Product.sum_of_ratings qs.
Proof.
  induction 1 as [|r qs Hr Hqs IH]; [reflexivity|].
  rewrite different_rate_cons by assumption. simpl. rewrite IH. reflexivity.
Qed.

(** The detour through the percentage, in exact arithmetic. *)
Lemma percentage_detour_exact (s n : Z) :
  0 < n ->
  (fdiv (fmul (truediv (F:=Q) s (n * 5)) (of_int 100)) (of_int 20)
   == truediv (F:=Q) s n)%Q.
Proof.
  intros Hn. unfold truediv. simpl. rewrite inject_Z_mult.
  assert (Hn' : ~ (inject_Z n == 0)%Q).
  { change 0%Q with (inject_Z 0). rewrite inject_Z_injective. lia. }
  field. exact Hn'.
Qed.

(** Two floats on either side of a third are different. *)
Lemma PyFloat_neq (x y t : float) :
  PrimFloat.ltb x t = true -> PrimFloat.ltb y t = false ->
  @PyFloat float x <> PyFloat y.
Proof. intros Hx Hy [= ->]. congruence. Qed.

(** C4 fails on the program's arithmetic.  Twenty reviews, three rated 2
    and seventeen rated 3, have the mean 2.85: the program returns 2.8, and
    rounding the mean gives 2.9.  One review rated 10 has the mean 10: the
    program returns 0.0. *)
Lemma review_score_is_not_rounded_mean :
  (Product.review_set store_20 1 <> [] /\
   Product.get_review_percentage (F:=float) store_20 1
   = PyFloat 0x1.6666666666666p+1%float /\
   Product.spec_review_score (F:=float) store_20 1
   = PyFloat 0x1.7333333333333p+1%float /\
   Product.get_review_percentage (F:=float) store_20 1
   <> Product.spec_review_score store_20 1) /\
  (Product.review_set store_rated_10 1 <> [] /\
   Product.get_review_percentage (F:=float) store_rated_10 1 = PyFloat 0%float /\
   Product.spec_review_score (F:=float) store_rated_10 1 = PyFloat 10%float /\
   Product.get_review_percentage (F:=float) store_rated_10 1
   <> Product.spec_review_score store_rated_10 1).
Proof.
  assert (H20 : Product.get_review_percentage (F:=float) store_20 1
                = PyFloat 0x1.6666666666666p+1%float) by (vm_compute; reflexivity).
  assert (S20 : Product.spec_review_score (F:=float) store_20 1
                = PyFloat 0x1.7333333333333p+1%float) by (vm_compute; reflexivity).
  assert (H10 : Product.get_review_percentage (F:=float) store_rated_10 1
                = PyFloat 0%float) by (vm_compute; reflexivity).
  assert (S10 : Product.spec_review_score (F:=float) store_rated_10 1
                = PyFloat 10%float) by (vm_compute; reflexivity).
  rewrite H20, S20, H10, S10.
  split; (split; [vm_compute; discriminate|]); repeat (split; [reflexivity|]).
  - apply (PyFloat_neq _ _ 0x1.6cccccccccccdp+1%float); vm_compute; reflexivity.
  - apply (PyFloat_neq _ _ 5%float); vm_compute; reflexivity.
Qed.

(** C4, amended: for every product with at least one review whose ratings
    all lie in 1..5, the weighted sum is the sum of the individual ratings;
    in exact arithmetic the score of the percentage algorithm is the mean
    rounded to one decimal place; on floats it is the percentage algorithm
    applied to that sum, each step rounding as binary64 does. *)
Theorem review_score_of_valid_ratings (db : Store) (pk : nat) :
  let qs := Product.review_set db pk in
  qs <> [] ->
  Forall (fun r => 1 <= row_rate r <= 5) qs ->
  Product.different_rate qs = Product.sum_of_ratings qs /\
  Product.get_review_percentage (F:=Q) db pk
  = Product.spec_review_score (F:=Q) db pk /\
  Product.get_review_percentage (F:=float) db pk
  = PyFloat (round1 (fdiv (fmul (truediv (Product.sum_of_ratings qs)
                                         (Product.count qs * 5))
                                (of_int 100))
                          (of_int 20))).
Proof.
  intros qs Hsome Hvalid.
  pose proof (different_rate_sum qs Hvalid) as Hsum.
  assert (Hcount : 0 < Product.count qs).
  { unfold Product.count. destruct qs; [congruence | simpl; lia]. }
  assert (Htotal : (Product.total_rate qs =? 0) = false).
  { unfold Product.total_rate. apply Z.eqb_neq. lia. }
  split; [exact Hsum|].
  unfold Product.get_review_percentage, Product.spec_review_score.
  fold qs. rewrite Htotal, Hsum. split; [|reflexivity].
  f_equal. apply Q_round1_comp.
  apply (percentage_detour_exact (Product.sum_of_ratings qs) (Product.count qs)).
  exact Hcount.
Qed.

Lemma review_score_of_valid_ratings_witness :
  Product.different_rate (Product.review_set store_20 1) = 57 /\
  Product.get_review_percentage (F:=Q) store_20 1
  = Product.spec_review_score (F:=Q) store_20 1.
Proof.
  destruct (review_score_of_valid_ratings store_20 1) as (Hsum & Hexact & _).
  - vm_compute. discriminate.
  - apply (bool_decide_unpack _). vm_compute. reflexivity.
  - split; [rewrite Hsum; vm_compute; reflexivity | exact Hexact].
Defined.

(** ** Foreign keys *)

Section Resolves.
Context {A B : Type} (ref : A -> option nat).

Lemma table_write_lookup (pk : option nat) (row : B) (t : Table B) k :
  is_Some (rows t !! k) -> is_Some (rows (fst (table_write pk row t)) !! k).
Proof.
  unfold table_write. destruct pk as [j|]; simpl.
  - rewrite lookup_insert_is_Some'. auto.
  - destruct (rows t !! next_pk t); simpl; [auto|].
    rewrite lookup_insert_is_Some'. auto.
Qed.

(** Writing into the table pointed to breaks no reference. *)
Lemma resolves_write_target (t : Table A) (target : Table B) pk row :
  resolves ref t target -> resolves ref t (fst (table_write pk row target)).
Proof.
  intros Hres k r j Hk Hj. apply table_write_lookup. eauto.
Qed.

(** Writing a row whose reference resolves keeps the references resolved. *)
Lemma resolves_write_source (t : Table A) (target : Table B) pk row :
  resolves ref t target ->
  (forall j, ref row = Some j -> is_Some (rows target !! j)) ->
  resolves ref (fst (table_write pk row t)) target.
Proof.
  intros Hres Hrow k r j Hk Hj.
  apply table_write_rows in Hk as [Hk| ->]; eauto.
Qed.

Lemma resolves_delete_source (t : Table A) (target : Table B) pk :
  resolves ref t target -> resolves ref (table_delete pk t) target.
Proof.
  intros Hres k r j Hk Hj. simpl in Hk.
  apply lookup_delete_Some in Hk as [_ Hk]. eauto.
Qed.

(** Deleting the row [pk] of the table pointed to, after the [on_delete]
    action has run on the rows that point to it. *)
Lemma resolves_delete_target fk clear (t : Table A) (target : Table B) pk :
  (on_delete fk = SET_NULL -> forall row, ref (clear row) = None) ->
  resolves ref t target ->
  resolves ref (apply_on_delete fk ref clear pk t) (table_delete pk target).
Proof.
  intros Hclear Hres k r j Hk Hj. unfold apply_on_delete in Hk. simpl.
  destruct (on_delete fk) eqn:Hfk; simpl in Hk.
  - apply map_lookup_filter_Some in Hk as [Hk Hne]. simpl in Hne.
    rewrite lookup_delete_ne by congruence. eauto.
  - apply lookup_fmap_Some in Hk as (r0 & Hr & Hk). case_decide.
    + subst r. rewrite Hclear in Hj by reflexivity. discriminate.
    + subst r. rewrite lookup_delete_ne by congruence. eauto.
Qed.

(** After a cascade no row points to the deleted key. *)
Lemma cascade_lookup fk clear (t : Table A) pk k r :
  on_delete fk = CASCADE ->
  rows (apply_on_delete fk ref clear pk t) !! k = Some r
  <-> rows t !! k = Some r /\ ref r <> Some pk.
Proof.
  intros Hfk. unfold apply_on_delete. rewrite Hfk. simpl.
  rewrite map_lookup_filter_Some. reflexivity.
Qed.
End Resolves.

Lemma fk_ok_resolves {B} fk (ref : option nat) (target : Table B) j :
  negb (fk_ok fk ref target) = false -> ref = Some j ->
  is_Some (rows target !! j).
Proof.
  intros Hok ->. apply negb_false_iff in Hok. simpl in Hok.
  apply bool_decide_eq_true in Hok. exact Hok.
Qed.

(** C8: for every product, [delete] removes the product and every review
    that refers to it and keeps every other review; no review of the
    product is left, and in a store whose references all resolve they all
    resolve afterwards. *)
Theorem Product_delete_cascades (db : Store) (pk : nat) :
  store_wf db ->
  let db' := Product_delete pk db in
  rows (products db') !! pk = None /\
  (forall k r, rows (reviews db') !! k = Some r
     <-> rows (reviews db) !! k = Some r /\ row_product r <> Some pk) /\
  Product.review_set db' pk = [] /\
  store_wf db'.
Proof.
  intros [Hb Hp Hr] db'. subst db'. unfold Product_delete. simpl.
  assert (Hrows : forall k r,
    rows (apply_on_delete Review.product row_product (fun r => r) pk (reviews db))
      !! k = Some r
    <-> rows (reviews db) !! k = Some r /\ row_product r <> Some pk).
  { intros k r. apply cascade_lookup. reflexivity. }
  split; [apply lookup_delete_eq|]. split; [exact Hrows|]. split.
  - unfold Product.review_set. simpl.
    match goal with |- ?l = [] => destruct l as [|r rest] eqn:E end;
      [reflexivity|exfalso].
    assert (Hin : r ∈ r :: rest) by left. rewrite <- E in Hin.
    apply list_elem_of_filter in Hin as [Href Hin].
    apply list_elem_of_fmap in Hin as ([k r'] & -> & Hin).
    apply elem_of_map_to_list in Hin. apply Hrows in Hin as [_ Hne].
    simpl in Href. contradiction.
  - split; simpl.
    + exact Hb.
    + apply resolves_delete_source. exact Hp.
    + apply resolves_delete_target; [discriminate | exact Hr].
Qed.

(** ** Every reachable store resolves its references *)

Lemma resolves_target_mono {A B} (ref : A -> option nat) (t : Table A)
    (target target' : Table B) :
  (forall k, is_Some (rows target !! k) -> is_Some (rows target' !! k)) ->
  resolves ref t target -> resolves ref t target'.
Proof. intros Hmono Hres k r j Hk Hj. eauto. Qed.

Lemma set_null_keeps_keys {A} fk (ref : A -> option nat) clear pk (t : Table A) k :
  on_delete fk = SET_NULL ->
  is_Some (rows t !! k) ->
  is_Some (rows (apply_on_delete fk ref clear pk t) !! k).
Proof.
  intros Hfk Hk. unfold apply_on_delete. rewrite Hfk. simpl.
  rewrite lookup_fmap. apply fmap_is_Some. exact Hk.
Qed.

Lemma Category_save_wf pk c db : store_wf db -> store_wf (fst (Category_save pk c db)).
Proof.
  intros [Hb Hp Hr]. unfold Category_save.
  destruct (_ <? _)%nat; [split; assumption|].
  pose proof (resolves_write_target Brand_category _ (categories db) pk c Hb).
  destruct (table_write pk c (categories db)) as [t w]. split; assumption.
Qed.

Lemma Brand_save_wf pk b db : store_wf db -> store_wf (fst (Brand_save pk b db)).
Proof.
  intros [Hb Hp Hr]. unfold Brand_save.
  destruct (_ <? _)%nat; [split; assumption|].
  destruct (negb _) eqn:Hfk; [split; assumption|].
  pose proof (resolves_write_target Product_brand _ (brands db) pk b Hp).
  pose proof (resolves_write_source Brand_category _ (categories db) pk b Hb
                (fun j => fk_ok_resolves _ _ _ j Hfk)).
  destruct (table_write pk b (brands db)) as [t w]. split; assumption.
Qed.

Lemma Product_save_wf pk p db : store_wf db -> store_wf (fst (Product_save pk p db)).
Proof.
  intros [Hb Hp Hr]. unfold Product_save.
  destruct (_ <? _)%nat; [split; assumption|].
  destruct (negb _) eqn:Hfk; [split; assumption|].
  pose proof (resolves_write_target row_product _ (products db) pk p Hr).
  pose proof (resolves_write_source Product_brand _ (brands db) pk p Hp
                (fun j => fk_ok_resolves _ _ _ j Hfk)).
  destruct (table_write pk p (products db)) as [t w]. split; assumption.
Qed.

Lemma Category_delete_wf pk db : store_wf db -> store_wf (Category_delete pk db).
Proof.
  intros [Hb Hp Hr]. unfold Category_delete. split; simpl.
  - apply resolves_delete_target; [reflexivity | exact Hb].
  - eapply resolves_target_mono; [|exact Hp].
    intros k. apply set_null_keeps_keys. reflexivity.
  - exact Hr.
Qed.

Lemma Brand_delete_wf pk db : store_wf db -> store_wf (Brand_delete pk db).
Proof.
  intros [Hb Hp Hr]. unfold Brand_delete. split; simpl.
  - apply resolves_delete_source. exact Hb.
  - apply resolves_delete_target; [reflexivity | exact Hp].
  - eapply resolves_target_mono; [|exact Hr].
    intros k. apply set_null_keeps_keys. reflexivity.
Qed.

Lemma Product_delete_wf pk db : store_wf db -> store_wf (Product_delete pk db).
Proof.
  intros [Hb Hp Hr]. unfold Product_delete. split; simpl.
  - exact Hb.
  - apply resolves_delete_source. exact Hp.
  - apply resolves_delete_target; [discriminate | exact Hr].
Qed.

Lemma Review_delete_wf pk db : store_wf db -> store_wf (Review.delete pk db).
Proof.
  intros [Hb Hp Hr]. unfold Review.delete. split; simpl; auto.
  apply resolves_delete_source. exact Hr.
Qed.

Lemma to_row_product db self row :
  Review.to_row db self = Return row ->
  forall j, row_product row = Some j -> is_Some (rows (products db) !! j).
Proof.
  unfold Review.to_row. destruct (Review_rate self) as [r|]; [|discriminate].
  destruct (r <? _); [discriminate|]. destruct (_ <? r); [discriminate|].
  destruct (_ <? _)%nat; [discriminate|].
  destruct (negb _) eqn:Hfk; [discriminate|].
  intros [= <-] j. simpl. apply (fk_ok_resolves _ _ _ j Hfk).
Qed.

Lemma super_save_wf self db :
  store_wf db -> store_wf (snd (fst (Review.super_save (self, db)))).
Proof.
  intros [Hb Hp Hr]. unfold Review.super_save.
  destruct (Review.to_row db self) as [row|e] eqn:Hrow; [|split; assumption].
  pose proof (resolves_write_source row_product _ (products db)
                (Review_id self) row Hr (to_row_product _ _ _ Hrow)).
  destruct (table_write (Review_id self) row (reviews db)) as [t [k|e]];
    split; assumption.
Qed.

Lemma clean_wf self db :
  store_wf db -> store_wf (snd (fst (Review.clean (self, db)))).
Proof.
  intros Hwf. run_method. destruct (Review_rate self) as [r|]; [|exact Hwf].
  destruct (r <? 1); [exact Hwf|]. destruct (5 <? r); [exact Hwf|].
  apply super_save_wf. exact Hwf.
Qed.

Lemma full_clean_wf clean_fields self db :
  store_wf db -> store_wf (snd (fst (Review.full_clean clean_fields (self, db)))).
Proof.
  intros Hwf. pose proof (clean_wf self db Hwf) as Hclean.
  unfold Review.full_clean, Review.bind, Review.get_self. simpl.
  destruct (Review.clean (self, db)) as [[self' db'] [[]|e]]; simpl in *;
    [destruct (clean_fields self)|]; exact Hclean.
Qed.

Lemma save_wf clean_fields self db :
  store_wf db -> store_wf (snd (fst (Review.save clean_fields (self, db)))).
Proof.
  intros Hwf. unfold Review.save, Review.bind, Review.get_self. simpl.
  destruct (is_cleaned self); simpl; [apply super_save_wf; exact Hwf|].
  unfold Review.rate_lt, Review.rate_gt.
  destruct (Review_rate self) as [r|]; simpl; [|exact Hwf].
  destruct (r <? 1); simpl; [apply full_clean_wf; exact Hwf|].
  destruct (5 <? r); simpl;
    [apply full_clean_wf | apply super_save_wf]; exact Hwf.
Qed.

Lemma run_wf c db : store_wf db -> store_wf (run c db).
Proof.
  destruct c; simpl;
    auto using Category_save_wf, Category_delete_wf, Brand_save_wf,
      Brand_delete_wf, Product_save_wf, Product_delete_wf, save_wf,
      full_clean_wf, clean_wf, Review_delete_wf.
Qed.

Lemma empty_store_wf : store_wf empty_store.
Proof. split; intros k r j Hk; simpl in Hk; rewrite lookup_empty in Hk; discriminate. Qed.

Lemma reachable_wf db : reachable db -> store_wf db.
Proof. induction 1; [apply empty_store_wf | apply run_wf; assumption]. Qed.

Lemma run_all_reachable cs db : reachable db -> reachable (run_all cs db).
Proof.
  revert db; induction cs as [|c cs IH]; intros db Hdb; simpl;
    [assumption | apply IH; constructor; assumption].
Qed.

Lemma Product_delete_cascades_witness :
  length (Product.review_set store_two_products 1) = 2%nat /\
  Product.review_set (Product_delete 1 store_two_products) 1 = [] /\
  length (Product.review_set (Product_delete 1 store_two_products) 2) = 1%nat /\
  store_wf (Product_delete 1 store_two_products).
Proof.
  assert (Hwf : store_wf store_two_products).
  { apply reachable_wf, run_all_reachable. constructor. }
  destruct (Product_delete_cascades store_two_products 1 Hwf)
    as (_ & _ & Hnone & Hwf').
  split; [reflexivity|]. split; [exact Hnone|]. split; [reflexivity|exact Hwf'].
Defined.

(** ** The product of a review *)

(** C9 fails: [product] is declared [null=True], and a review saved with
    no product is stored with an empty reference. *)
Lemma review_without_product_is_stored :
  let db := run (ReviewSave accept_all (a_review None (Some 3))) empty_store in
  reachable db /\
  rows (reviews db) !! 1%nat
  = Some {| row_product := None; row_title := "title";
            row_description := "text"; row_rate := 3 |} /\
  ~ (forall k row, rows (reviews db) !! k = Some row -> is_Some (row_product row)).
Proof.
  intros db. split; [repeat constructor|]. split; [reflexivity|].
  intros Hall. destruct (Hall 1%nat _ eq_refl) as [pk Hpk]. discriminate.
Qed.

(** C9, amended: every stored review holds at most one reference to a
    product, and the reference is optional: in every store the program can
    reach it is either empty, as the declaration [null=True] allows, or the
    key of a product in the store. *)
Theorem review_product_reference (db : Store) :
  reachable db ->
  null Review.product = true /\
  forall k row, rows (reviews db) !! k = Some row ->
    row_product row = None \/
    exists pk p, row_product row = Some pk /\ rows (products db) !! pk = Some p.
Proof.
  intros Hreach. split; [reflexivity|]. intros k row Hk.
  destruct (row_product row) as [pk|] eqn:Hpk; [right | left; reflexivity].
  destruct (wf_reviews db (reachable_wf db Hreach) k row pk Hk Hpk) as [p Hp].
  exists pk, p. auto.
Qed.

Lemma review_product_reference_witness :
  exists pk p,
    row_product <$> rows (reviews store_two_products) !! 1%nat = Some (Some pk) /\
    rows (products store_two_products) !! pk = Some p.
Proof.
  assert (Hreach : reachable store_two_products).
  { apply run_all_reachable. constructor. }
  destruct (review_product_reference store_two_products Hreach) as [_ Hrows].
  destruct (Hrows 1%nat _ eq_refl) as [Hnone | (pk & p & Hpk & Hp)];
    [discriminate|].
  exists pk, p. split; [|exact Hp]. simpl in Hpk. rewrite <- Hpk. reflexivity.
Defined.

(** * Further properties *)

(** ** Validation and persistence of reviews *)

Lemma super_save_is_cleaned self db :
  is_cleaned (fst (fst (Review.super_save (self, db)))) = is_cleaned self.
Proof.
  unfold Review.super_save.
  destruct (Review.to_row db self) as [row|e]; [|reflexivity].
  destruct (table_write (Review_id self) row (reviews db)) as [t [k|e]];
    reflexivity.
Qed.

(** A write that returns has stored the row of the instance under its key. *)
Lemma super_save_stores self db :
  snd (Review.super_save (self, db)) = Return tt ->
  exists k row,
    Review_id (fst (fst (Review.super_save (self, db)))) = Some k /\
    rows (reviews (snd (fst (Review.super_save (self, db))))) !! k = Some row /\
    Review_rate self = Some (row_rate row) /\
    row_product row = Review_product self.
Proof.
  unfold Review.super_save.
  destruct (Review.to_row db self) as [row|e] eqn:Hrow; [|discriminate].
  assert (Hprod : row_product row = Review_product self).
  { revert Hrow. unfold Review.to_row.
    destruct (Review_rate self); [|discriminate].
    repeat match goal with |- context [if ?b then _ else _] => destruct b end;
      try discriminate.
    intros [= <-]. reflexivity. }
  apply to_row_rate in Hrow. unfold table_write.
  destruct (Review_id self) as [j|]; simpl.
  - intros _. exists j, row. rewrite lookup_insert_eq. auto.
  - destruct (rows (reviews db) !! next_pk (reviews db)); simpl; [discriminate|].
    intros _. exists (next_pk (reviews db)), row. rewrite lookup_insert_eq. auto.
Qed.

Lemma save_cleaned clean_fields self db :
  is_cleaned self = true ->
  Review.save clean_fields (self, db) = Review.super_save (self, db).
Proof. intros Hflag. run_method. rewrite Hflag. reflexivity. Qed.

Lemma clean_in_range self db r :
  Review_rate self = Some r -> 1 <= r <= 5 ->
  Review.clean (self, db)
  = Review.super_save (Review.set_is_cleaned true self, db).
Proof.
  intros Hrate Hr. run_method. rewrite Hrate.
  destruct (Z.ltb_spec r 1); [lia|]. destruct (Z.ltb_spec 5 r); [lia|].
  reflexivity.
Qed.

(** X1: whatever the rating, absent or any integer, [clean] leaves the
    instance with [is_cleaned] set and a rating in [1, 5]: [1] for an
    absent rating or one below 1, [5] for one above 5, the rating itself
    otherwise; when the rating was absent or out of range, [clean] returns
    without raising and without touching the database. *)
Theorem clean_postcondition (self : Review) (db : Store) :
  let out := Review.clean (self, db) in
  is_cleaned (fst (fst out)) = true /\
  (exists r', Review_rate (fst (fst out)) = Some r' /\ 1 <= r' <= 5 /\
     (Review_rate self = None -> r' = 1) /\
     (forall r, Review_rate self = Some r ->
        (r < 1 -> r' = 1) /\ (5 < r -> r' = 5) /\ (1 <= r <= 5 -> r' = r))) /\
  ((forall r, Review_rate self = Some r -> r < 1 \/ 5 < r) ->
   snd out = Return tt /\ snd (fst out) = db).
Proof.
  intros out. subst out.
  destruct (Review_rate self) as [r|] eqn:Hrate.
  - destruct (Z.lt_ge_cases r 1) as [Hlt|Hge];
      [|destruct (Z.lt_ge_cases 5 r) as [Hgt|Hle]].
    + run_method. rewrite Hrate. destruct (Z.ltb_spec r 1); [|lia]. simpl.
      split; [reflexivity|]. split; [|auto].
      exists 1. split; [reflexivity|]. split; [lia|].
      split; [discriminate | intros ? [= <-]; lia].
    + run_method. rewrite Hrate. destruct (Z.ltb_spec r 1); [lia|].
      destruct (Z.ltb_spec 5 r); [|lia]. simpl.
      split; [reflexivity|]. split; [|auto].
      exists 5. split; [reflexivity|]. split; [lia|].
      split; [discriminate | intros ? [= <-]; lia].
    + rewrite (clean_in_range self db r) by (auto; lia).
      rewrite super_save_is_cleaned, super_save_rate. simpl. rewrite Hrate.
      split; [reflexivity|]. split.
      * exists r. split; [reflexivity|]. split; [lia|].
        split; [discriminate | intros ? [= <-]; lia].
      * intros Hout. destruct (Hout r eq_refl); lia.
  - run_method. rewrite Hrate. simpl.
    split; [reflexivity|]. split; [|auto].
    exists 1. split; [reflexivity|]. split; [lia|].
    split; [reflexivity | discriminate].
Qed.

Lemma clean_postcondition_witness :
  Review_rate (fst (fst (Review.clean (a_review None None, empty_store))))
  = Some 1 /\
  snd (Review.clean (a_review None (Some 7), empty_store)) = Return tt.
Proof.
  destruct (clean_postcondition (a_review None None) empty_store)
    as (_ & (r' & Hr' & _ & Hnone & _) & _).
  destruct (clean_postcondition (a_review None (Some 7)) empty_store)
    as (_ & _ & Hout).
  split.
  - rewrite Hr', (Hnone eq_refl). reflexivity.
  - apply Hout. intros r [= <-]. right. lia.
Defined.

(** X2: on a rating in 1..5 [clean] itself calls the underlying save, so
    validating writes: when the framework's validators refuse the instance
    and the database accepts the row, [full_clean] raises
    [ValidationError] and the row is stored all the same. *)
Theorem full_clean_writes_refused_review (clean_fields : Review -> bool)
    (self : Review) (db : Store) (r : Z) :
  Review_rate self = Some r ->
  1 <= r <= 5 ->
  clean_fields self = false ->
  snd (Review.super_save (Review.set_is_cleaned true self, db)) = Return tt ->
  let out := Review.full_clean clean_fields (self, db) in
  snd out = Raise ValidationError /\
  exists k row,
    Review_id (fst (fst out)) = Some k /\
    rows (reviews (snd (fst out))) !! k = Some row /\
    row_rate row = r.
Proof.
  intros Hrate Hr Hcf Hsaved out. subst out.
  destruct (super_save_stores _ _ Hsaved) as (k & row & Hid & Hrow & Hrr & _).
  unfold Review.full_clean, Review.bind, Review.get_self. simpl.
  rewrite Hcf, (clean_in_range self db r) by assumption.
  destruct (Review.super_save (Review.set_is_cleaned true self, db))
    as [[self' db'] [[]|e]]; [|discriminate].
  simpl in *. split; [reflexivity|]. exists k, row.
  rewrite Hrate in Hrr. injection Hrr as <-. auto.
Qed.

Lemma full_clean_writes_refused_review_witness :
  let out := Review.full_clean reject_all (a_review None (Some 3), empty_store) in
  snd out = Raise ValidationError /\
  row_rate <$> rows (reviews (snd (fst out))) !! 1%nat = Some 3.
Proof.
  destruct (full_clean_writes_refused_review reject_all (a_review None (Some 3))
              empty_store 3 eq_refl ltac:(lia) eq_refl eq_refl) as [Hraise _].
  split; [exact Hraise | reflexivity].
Defined.

(** X3: an out-of-range rating takes two calls to reach the database.  On
    an instance not yet cleaned whose fields the validators accept, the
    first [save] returns with the database untouched; the second [save] of
    that same instance goes to the underlying save, and when it returns the
    row stored under the key of the instance carries the clamped rating. *)
Theorem save_twice_stores_clamped (clean_fields : Review -> bool)
    (self : Review) (db : Store) (r : Z) :
  Review_rate self = Some r ->
  is_cleaned self = false ->
  r < 1 \/ 5 < r ->
  clean_fields self = true ->
  let first := Review.save clean_fields (self, db) in
  let second := Review.save clean_fields (fst first) in
  snd first = Return tt /\ snd (fst first) = db /\
  (snd second = Return tt ->
   exists k row,
     Review_id (fst (fst second)) = Some k /\
     rows (reviews (snd (fst second))) !! k = Some row /\
     (r < 1 -> row_rate row = 1) /\ (5 < r -> row_rate row = 5)).
Proof.
  intros Hrate Hflag Hr Hcf first second. subst first second.
  assert (Hfirst : exists c, (c = 1 /\ r < 1 \/ c = 5 /\ 5 < r) /\
            Review.save clean_fields (self, db)
            = ((Review.set_rate c (Review.set_is_cleaned true self), db),
               Return tt)).
  { destruct Hr as [Hlt|Hgt].
    - exists 1. rewrite (save_below _ _ _ r), Hcf by assumption.
      split; [left; auto | reflexivity].
    - exists 5. rewrite (save_above _ _ _ r), Hcf by assumption.
      split; [right; auto | reflexivity]. }
  destruct Hfirst as (c & Hc & ->). simpl.
  split; [reflexivity|]. split; [reflexivity|].
  rewrite save_cleaned by reflexivity. intros Hsaved.
  destruct (super_save_stores _ _ Hsaved) as (k & row & Hid & Hrow & Hrr & _).
  exists k, row. simpl in Hrr. injection Hrr as Hrr.
  repeat split; auto; lia.
Qed.

Lemma save_twice_stores_clamped_witness :
  let first := Review.save accept_all (a_review None (Some 10), empty_store) in
  let second := Review.save accept_all (fst first) in
  rows (reviews (snd (fst first))) = ∅ /\
  row_rate <$> rows (reviews (snd (fst second))) !! 1%nat = Some 5.
Proof.
  destruct (save_twice_stores_clamped accept_all (a_review None (Some 10))
              empty_store 10 eq_refl eq_refl ltac:(right; lia) eq_refl)
    as (_ & Hdb & _).
  split; [rewrite Hdb; reflexivity | reflexivity].
Defined.

(** X4: [save] sets [is_cleaned] exactly when it validates: afterwards the
    flag is set if it was set before or the rating was out of range, and a
    flag that is set is never cleared. *)
Theorem save_is_cleaned_afterwards (clean_fields : Review -> bool)
    (self : Review) (db : Store) (r : Z) :
  Review_rate self = Some r ->
  is_cleaned (fst (fst (Review.save clean_fields (self, db))))
  = is_cleaned self || (r <? 1) || (5 <? r).
Proof.
  intros Hrate. destruct (is_cleaned self) eqn:Hflag.
  - rewrite save_cleaned, super_save_is_cleaned by assumption.
    rewrite Hflag. reflexivity.
  - destruct (Z.ltb_spec r 1) as [Hlt|Hge];
      [|destruct (Z.ltb_spec 5 r) as [Hgt|Hle]].
    + rewrite (save_below _ _ _ r) by assumption. reflexivity.
    + rewrite (save_above _ _ _ r) by assumption. reflexivity.
    + rewrite (save_in_range _ _ _ r), super_save_is_cleaned by (auto; lia).
      rewrite Hflag. reflexivity.
Qed.

Lemma save_is_cleaned_afterwards_witness :
  is_cleaned (fst (fst (Review.save accept_all
     (a_review None (Some 4), empty_store)))) = false /\
  is_cleaned (fst (fst (Review.save accept_all
     (a_review None (Some 6), empty_store)))) = true.
Proof.
  rewrite (save_is_cleaned_afterwards accept_all (a_review None (Some 4))
             empty_store 4 eq_refl).
  rewrite (save_is_cleaned_afterwards accept_all (a_review None (Some 6))
             empty_store 6 eq_refl).
  split; reflexivity.
Defined.

(** X5: an instance is clamped at most once.  After a [save] that clamped
    an out-of-range rating, a new rating assigned to the same instance,
    in range or not, is saved as it is: the instance keeps it, and when the
    write returns the stored row carries it. *)
Theorem save_clamps_once (clean_fields : Review -> bool)
    (self : Review) (db : Store) (r r2 : Z) :
  Review_rate self = Some r ->
  is_cleaned self = false ->
  r < 1 \/ 5 < r ->
  let self1 := fst (fst (Review.save clean_fields (self, db))) in
  let out := Review.save clean_fields (Review.set_rate r2 self1, db) in
  Review_rate (fst (fst out)) = Some r2 /\
  (snd out = Return tt ->
   exists k row,
     Review_id (fst (fst out)) = Some k /\
     rows (reviews (snd (fst out))) !! k = Some row /\
     row_rate row = r2).
Proof.
  intros Hrate Hflag Hr self1 out.
  assert (Hclean : is_cleaned (Review.set_rate r2 self1) = true).
  { subst self1. destruct Hr as [Hlt|Hgt].
    - rewrite (save_below _ _ _ r) by assumption. reflexivity.
    - rewrite (save_above _ _ _ r) by assumption. reflexivity. }
  subst out. rewrite save_cleaned by exact Hclean.
  split; [rewrite super_save_rate; reflexivity|]. intros Hsaved.
  destruct (super_save_stores _ _ Hsaved) as (k & row & Hid & Hrow & Hrr & _).
  exists k, row. simpl in Hrr. injection Hrr as Hrr. auto.
Qed.

Lemma save_clamps_once_witness :
  let self1 := fst (fst (Review.save accept_all
                           (a_review None (Some 10), empty_store))) in
  let out := Review.save accept_all (Review.set_rate 9 self1, empty_store) in
  Review_rate self1 = Some 5 /\
  Review_rate (fst (fst out)) = Some 9 /\
  row_rate <$> rows (reviews (snd (fst out))) !! 1%nat = Some 9.
Proof.
  destruct (save_clamps_once accept_all (a_review None (Some 10)) empty_store
              10 9 eq_refl eq_refl ltac:(right; lia)) as [Hkept _].
  split; [reflexivity|]. split; [exact Hkept | reflexivity].
Defined.

(** X6: [save] never touches the categories, the brands or the products,
    and a [save] that raises has written no review: the rows of the reviews
    are those from before the call. *)
Theorem save_that_raises_writes_nothing (clean_fields : Review -> bool)
    (self : Review) (db : Store) :
  let out := Review.save clean_fields (self, db) in
  let db' := snd (fst out) in
  categories db' = categories db /\ brands db' = brands db /\
  products db' = products db /\
  (forall e, snd out = Raise e -> rows (reviews db') = rows (reviews db)).
Proof.
  intros out db'. subst db' out.
  assert (Hsuper : forall s : Review,
    let o := Review.super_save (s, db) in
    categories (snd (fst o)) = categories db /\
    brands (snd (fst o)) = brands db /\ products (snd (fst o)) = products db /\
    (forall e, snd o = Raise e -> rows (reviews (snd (fst o))) = rows (reviews db))).
  { intros s. unfold Review.super_save.
    destruct (Review.to_row db s) as [row|e0]; [|simpl; auto].
    unfold table_write. destruct (Review_id s) as [j|]; simpl.
    - repeat split; discriminate.
    - destruct (rows (reviews db) !! next_pk (reviews db)); simpl;
        repeat split; auto; discriminate. }
  destruct (is_cleaned self) eqn:Hflag;
    [rewrite save_cleaned by assumption; apply Hsuper|].
  destruct (Review_rate self) as [r|] eqn:Hrate.
  - destruct (Z.lt_ge_cases r 1) as [Hlt|Hge];
      [|destruct (Z.lt_ge_cases 5 r) as [Hgt|Hle]].
    + rewrite (save_below _ _ _ r) by assumption. simpl. auto.
    + rewrite (save_above _ _ _ r) by assumption. simpl. auto.
    + rewrite (save_in_range _ _ _ r) by (auto; lia). apply Hsuper.
  - run_method. rewrite Hflag, Hrate. simpl. auto.
Qed.

Lemma save_that_raises_writes_nothing_witness :
  let out := Review.save accept_all (a_review (Some 7%nat) (Some 3), store_20) in
  snd out = Raise IntegrityError /\
  rows (reviews (snd (fst out))) = rows (reviews store_20).
Proof.
  destruct (save_that_raises_writes_nothing accept_all
              (a_review (Some 7%nat) (Some 3)) store_20) as (_ & _ & _ & Hrows).
  split; [reflexivity | apply (Hrows IntegrityError); reflexivity].
Defined.

(** X7: a review whose title is longer than 50 characters and whose rating
    is in 1..5 is refused by the database: [save] raises [DataError] and
    leaves the instance and the database as they were. *)
Theorem save_title_too_long (clean_fields : Review -> bool)
    (self : Review) (db : Store) (r : Z) :
  Review_rate self = Some r ->
  1 <= r <= 5 ->
  (Review.title_max_length < String.length (Review_title self))%nat ->
  Review.save clean_fields (self, db) = ((self, db), Raise DataError).
Proof.
  intros Hrate Hr Hlen.
  assert (Hsuper : Review.super_save (self, db) = ((self, db), Raise DataError)).
  { unfold Review.super_save, Review.to_row. rewrite Hrate.
    unfold Review.rate_min, Review.rate_max.
    destruct (Z.ltb_spec r 0); [lia|]. destruct (Z.ltb_spec 32767 r); [lia|].
    destruct (Nat.ltb_spec Review.title_max_length
                (String.length (Review_title self))); [reflexivity|lia]. }
  destruct (is_cleaned self) eqn:Hflag.
  - rewrite save_cleaned by assumption. exact Hsuper.
  - rewrite (save_in_range _ _ _ r) by assumption. exact Hsuper.
Qed.

Lemma save_title_too_long_witness :
  String.length (Review_title a_review_with_long_title) = 52%nat /\
  snd (Review.save accept_all (a_review_with_long_title, empty_store))
  = Raise DataError.
Proof.
  split; [reflexivity|].
  rewrite (save_title_too_long accept_all a_review_with_long_title empty_store 3
             eq_refl ltac:(lia) ltac:(vm_compute; lia)).
  reflexivity.
Defined.

(** ** The weighted sum and the score *)

Lemma different_rate_cons_invalid r qs :
  ~ (1 <= row_rate r <= 5) ->
  Product.different_rate (r :: qs) = Product.different_rate qs.
Proof.
  intros Hr. unfold Product.different_rate, Product.filter_rate, Product.count.
  rewrite !filter_cons. repeat case_decide; lia.
Qed.

Lemma sum_of_valid_ratings_bound qs :
  0 <= Product.sum_of_ratings (filter (fun r => 1 <= row_rate r <= 5) qs)
    <= Product.total_rate qs.
Proof.
  unfold Product.total_rate, Product.count.
  induction qs as [|r qs IH]; [simpl; lia|].
  rewrite filter_cons. case_decide; simpl length; simpl Product.sum_of_ratings; lia.
Qed.

Lemma different_rate_sums_valid_ratings_aux qs :
  0 <= Product.different_rate qs <= Product.total_rate qs.
Proof.
  assert (Hsum : Product.different_rate qs
    = Product.sum_of_ratings (filter (fun r => 1 <= row_rate r <= 5) qs)).
  { induction qs as [|r qs IH]; [reflexivity|].
    rewrite filter_cons. case_decide.
    - rewrite different_rate_cons by assumption. simpl. rewrite IH. reflexivity.
    - rewrite different_rate_cons_invalid by assumption. exact IH. }
  rewrite Hsum. apply sum_of_valid_ratings_bound.
Qed.

(** X8: for every set of reviews, the weighted sum is the sum of the
    ratings that lie in 1..5; a review rated otherwise adds nothing to it
    and still counts in the total, so the weighted sum lies between 0 and
    the total, five times the number of reviews. *)
Theorem different_rate_sums_valid_ratings (qs : list ReviewRow) :
  Product.different_rate qs
  = Product.sum_of_ratings (filter (fun r => 1 <= row_rate r <= 5) qs) /\
  0 <= Product.different_rate qs <= Product.total_rate qs.
Proof.
  assert (Hsum : Product.different_rate qs
    = Product.sum_of_ratings (filter (fun r => 1 <= row_rate r <= 5) qs)).
  { induction qs as [|r qs IH]; [reflexivity|].
    rewrite filter_cons. case_decide.
    - rewrite different_rate_cons by assumption. simpl. rewrite IH. reflexivity.
    - rewrite different_rate_cons_invalid by assumption. exact IH. }
  split; [exact Hsum|]. rewrite Hsum. apply sum_of_valid_ratings_bound.
Qed.

Lemma round_half_even_bounds a b lo hi :
  0 < b -> lo * b <= a <= hi * b -> lo <= round_half_even a b <= hi.
Proof.
  intros Hb [Hlo Hhi]. unfold round_half_even.
  pose proof (Z.div_mod a b ltac:(lia)) as Hdiv.
  pose proof (Z.mod_pos_bound a b Hb) as Hmod.
  assert (lo <= a / b) by (apply Z.div_le_lower_bound; lia).
  assert (a / b <= hi) by (apply Z.div_le_upper_bound; lia).
  assert (a / b = hi -> a mod b = 0) by nia.
  repeat match goal with |- context [?x <? ?y] => destruct (Z.ltb_spec x y) end;
    try destruct (Z.even (a / b)); lia.
Qed.

Lemma Q_round1_bounds (x : Q) :
  (0 <= x <= 5)%Q -> (0 <= Q_round1 x <= 5)%Q.
Proof.
  intros [H0 H5]. unfold Q_round1.
  set (y := (x * inject_Z 10)%Q).
  assert (Hy0 : (0 <= y)%Q).
  { subst y. apply Qmult_le_0_compat; [exact H0 | discriminate]. }
  assert (Hy50 : (y <= 50)%Q).
  { subst y. change 50%Q with (5 * inject_Z 10)%Q.
    apply Qmult_le_compat_r; [exact H5 | discriminate]. }
  clearbody y.
  assert (Hk : 0 <= round_half_even (Qnum y) (Z.pos (Qden y)) <= 50).
  { apply round_half_even_bounds; [lia|].
    unfold Qle in Hy0, Hy50. simpl in Hy0, Hy50. lia. }
  unfold Qle. simpl. lia.
Qed.

(** X9: for every product with at least one review, rated in range or not,
    [get_review_percentage] returns a float, and in exact arithmetic the
    score lies between 0 and 5. *)
Theorem review_score_between_0_and_5 (db : Store) (pk : nat) :
  Product.review_set db pk <> [] ->
  (exists x : float, Product.get_review_percentage (F:=float) db pk = PyFloat x) /\
  (exists q : Q, Product.get_review_percentage (F:=Q) db pk = PyFloat q /\
                 (0 <= q <= 5)%Q).
Proof.
  intros Hsome. set (qs := Product.review_set db pk) in *.
  assert (Hcount : 0 < Product.count qs).
  { unfold Product.count. destruct qs; [congruence | simpl; lia]. }
  assert (Htotal : (Product.total_rate qs =? 0) = false).
  { unfold Product.total_rate. apply Z.eqb_neq. lia. }
  unfold Product.get_review_percentage. fold qs. rewrite Htotal.
  split; [eexists; reflexivity|]. eexists. split; [reflexivity|].
  apply Q_round1_bounds.
  destruct (different_rate_sums_valid_ratings_aux qs) as [Hlo Hhi].
  unfold Product.total_rate in *.
  rewrite (percentage_detour_exact (Product.different_rate qs) (Product.count qs))
    by exact Hcount.
  unfold truediv. simpl.
  assert (Hpos : (0 < inject_Z (Product.count qs))%Q).
  { change 0%Q with (inject_Z 0). rewrite <- Zlt_Qlt. exact Hcount. }
  split.
  - apply Qle_shift_div_l; [exact Hpos|]. rewrite Qmult_0_l.
    change 0%Q with (inject_Z 0). rewrite <- Zle_Qle. exact Hlo.
  - apply Qle_shift_div_r; [exact Hpos|].
    change 5%Q with (inject_Z 5). rewrite <- inject_Z_mult, <- Zle_Qle. lia.
Qed.

Lemma review_score_between_0_and_5_witness :
  Product.get_review_percentage (F:=Q) store_rated_10 1 = PyFloat (0 # 10) /\
  exists q : Q, Product.get_review_percentage (F:=Q) store_20 1 = PyFloat q /\
                (0 <= q <= 5)%Q.
Proof.
  split; [vm_compute; reflexivity|].
  apply (review_score_between_0_and_5 store_20 1). vm_compute. discriminate.
Defined.

(** ** Counting reviews *)

Lemma review_set_length_insert_new (db : Store) (t : Table ReviewRow) k row pk :
  rows (reviews db) !! k = None ->
  rows t = <[k := row]> (rows (reviews db)) ->
  length (Product.review_set (Review.with_reviews db t) pk)
  = (length (Product.review_set db pk)
     + if decide (row_product row = Some pk) then 1 else 0)%nat.
Proof.
  intros Hfresh Hrows. unfold Product.review_set. simpl. rewrite Hrows.
  rewrite (map_to_list_insert _ _ _ Hfresh), fmap_cons, filter_cons. simpl.
  case_decide; simpl; lia.
Qed.

(** X10: saving a new review, rated in 1..5, of the product [pk] adds one
    to the number of reviews of [pk] and leaves the number of reviews of
    every other product as it was. *)
Theorem save_adds_one_review (clean_fields : Review -> bool)
    (self : Review) (db : Store) (r : Z) (pk : nat) :
  Review_id self = None ->
  Review_product self = Some pk ->
  Review_rate self = Some r ->
  1 <= r <= 5 ->
  snd (Review.save clean_fields (self, db)) = Return tt ->
  let db' := snd (fst (Review.save clean_fields (self, db))) in
  Product.get_count_total_reviews db' pk
  = Product.get_count_total_reviews db pk + 1 /\
  (forall other, other <> pk ->
     Product.get_count_total_reviews db' other
     = Product.get_count_total_reviews db other).
Proof.
  intros Hid Hprod Hrate Hr.
  assert (Hsave : Review.save clean_fields (self, db) = Review.super_save (self, db)).
  { destruct (is_cleaned self) eqn:Hflag;
      [apply save_cleaned | apply (save_in_range _ _ _ r)]; assumption. }
  rewrite Hsave. unfold Review.super_save.
  destruct (Review.to_row db self) as [row|e] eqn:Hrow; [|discriminate].
  assert (Hrp : row_product row = Some pk).
  { revert Hrow. unfold Review.to_row. rewrite Hrate, Hprod.
    repeat match goal with |- context [if ?b then _ else _] => destruct b end;
      try discriminate.
    intros [= <-]. reflexivity. }
  unfold table_write. rewrite Hid.
  destruct (rows (reviews db) !! next_pk (reviews db)) eqn:Hfresh;
    [discriminate|]. simpl. intros _.
  unfold Product.get_count_total_reviews, Product.count.
  split; [|intros other Hother];
    rewrite (review_set_length_insert_new db _ (next_pk (reviews db)) row)
      by (auto; reflexivity);
    rewrite Hrp; case_decide; try congruence; lia.
Qed.

Lemma save_adds_one_review_witness :
  Product.get_count_total_reviews store_20 1 = 20 /\
  Product.get_count_total_reviews
    (snd (fst (Review.save accept_all (a_review (Some 1%nat) (Some 4), store_20)))) 1
  = 21.
Proof.
  destruct (save_adds_one_review accept_all (a_review (Some 1%nat) (Some 4))
              store_20 4 1 eq_refl eq_refl eq_refl ltac:(lia) eq_refl) as [Hone _].
  split; [reflexivity | rewrite Hone; reflexivity].
Defined.

(** X11: saving again a review that is stored already, with the product it
    was stored with, adds no review: the number of reviews of every product
    is as it was. *)
Theorem save_again_keeps_count (clean_fields : Review -> bool)
    (self : Review) (db : Store) (k : nat) (old : ReviewRow) (pk : nat) :
  Review_id self = Some k ->
  rows (reviews db) !! k = Some old ->
  row_product old = Review_product self ->
  Product.get_count_total_reviews
    (snd (fst (Review.save clean_fields (self, db)))) pk
  = Product.get_count_total_reviews db pk.
Proof.
  intros Hid Hold Hprod.
  assert (Hsuper : forall s : Review,
    Review_id s = Some k -> Review_product s = Review_product self ->
    Product.get_count_total_reviews (snd (fst (Review.super_save (s, db)))) pk
    = Product.get_count_total_reviews db pk).
  { intros s Hsid Hsprod. unfold Review.super_save.
    destruct (Review.to_row db s) as [row|e] eqn:Hrow; [|reflexivity].
    assert (Hrp : row_product row = row_product old).
    { rewrite Hprod, <- Hsprod. revert Hrow. unfold Review.to_row.
      destruct (Review_rate s); [|discriminate].
      repeat match goal with |- context [if ?b then _ else _] => destruct b end;
        try discriminate.
      intros [= <-]. reflexivity. }
    unfold table_write. rewrite Hsid. simpl.
    unfold Product.get_count_total_reviews, Product.count. f_equal.
    pose proof (review_set_length_insert_new
      (Review.with_reviews db (table_delete k (reviews db)))
      {| rows := <[k := row]> (rows (reviews db)); next_pk := next_pk (reviews db) |}
      k row pk) as Hnew.
    pose proof (review_set_length_insert_new
      (Review.with_reviews db (table_delete k (reviews db)))
      (reviews db) k old pk) as Hsame.
    simpl in Hnew, Hsame.
    rewrite lookup_delete_eq, insert_delete_eq in Hnew, Hsame.
    specialize (Hnew eq_refl eq_refl).
    rewrite (insert_id _ _ _ Hold) in Hsame. specialize (Hsame eq_refl eq_refl).
    unfold Review.with_reviews in *. simpl in *.
    replace {| categories := categories db; brands := brands db;
               products := products db; reviews := reviews db |} with db in Hsame
      by (destruct db; reflexivity).
    rewrite Hnew, Hsame, Hrp. reflexivity. }
  destruct (is_cleaned self) eqn:Hflag;
    [rewrite save_cleaned by assumption; apply Hsuper; auto|].
  destruct (Review_rate self) as [r|] eqn:Hrate.
  - destruct (Z.lt_ge_cases r 1) as [Hlt|Hge];
      [|destruct (Z.lt_ge_cases 5 r) as [Hgt|Hle]].
    + rewrite (save_below _ _ _ r) by assumption. reflexivity.
    + rewrite (save_above _ _ _ r) by assumption. reflexivity.
    + rewrite (save_in_range _ _ _ r) by (auto; lia). apply Hsuper; auto.
  - run_method. rewrite Hflag, Hrate. reflexivity.
Qed.

Lemma save_again_keeps_count_witness :
  let again := {| Review_id := Some 1%nat; Review_product := Some 1%nat;
                  Review_title := "title"; Review_description := "edited";
                  Review_rate := Some 3; is_cleaned := false |} in
  let out := Review.save accept_all (again, store_two_products) in
  row_rate <$> rows (reviews (snd (fst out))) !! 1%nat = Some 3 /\
  Product.get_count_total_reviews (snd (fst out)) 1
  = Product.get_count_total_reviews store_two_products 1.
Proof.
  intros again out. split; [reflexivity|].
  apply (save_again_keeps_count accept_all again store_two_products 1
           {| row_product := Some 1%nat; row_title := "title";
              row_description := "text"; row_rate := 4 |} 1);
    reflexivity.
Defined.

(** ** Deleting categories and brands *)

Lemma set_null_lookup {A} fk (ref : A -> option nat) clear pk (t : Table A) k :
  on_delete fk = SET_NULL ->
  rows (apply_on_delete fk ref clear pk t) !! k
  = (fun row => if decide (ref row = Some pk) then clear row else row)
      <$> rows t !! k.
Proof.
  intros Hfk. unfold apply_on_delete. rewrite Hfk. simpl. apply lookup_fmap.
Qed.

(** X12: deleting a category deletes no brand.  Every brand keeps its key
    and its name; the brands of the deleted category have their category
    emptied, the others keep theirs, so no brand refers to the deleted
    category; products and reviews are untouched. *)
Theorem Category_delete_sets_null (db : Store) (pk : nat) :
  let db' := Category_delete pk db in
  rows (categories db') !! pk = None /\
  (forall k, is_Some (rows (brands db') !! k) <-> is_Some (rows (brands db) !! k)) /\
  (forall k b, rows (brands db) !! k = Some b ->
     exists b', rows (brands db') !! k = Some b' /\
       Brand_name b' = Brand_name b /\
       Brand_category b'
       = if decide (Brand_category b = Some pk) then None else Brand_category b) /\
  (forall k b', rows (brands db') !! k = Some b' -> Brand_category b' <> Some pk) /\
  products db' = products db /\ reviews db' = reviews db.
Proof.
  intros db'. subst db'. unfold Category_delete. simpl.
  assert (Hlook := fun k => set_null_lookup Brand.category Brand_category
                     Brand.clear_category pk (brands db) k eq_refl).
  split; [apply lookup_delete_eq|]. split; [|split; [|split; [|split]]].
  - intros k. rewrite Hlook, fmap_is_Some. reflexivity.
  - intros k b Hb. rewrite Hlook, Hb. simpl. eexists. split; [reflexivity|].
    case_decide; split; reflexivity.
  - intros k b'. rewrite Hlook. intros Hb.
    apply fmap_Some in Hb as (b & Hb & ->). case_decide; [discriminate|assumption].
  - reflexivity.
  - reflexivity.
Qed.

Lemma Category_delete_sets_null_witness :
  Brand_category <$> rows (brands store_with_brands) !! 1%nat = Some (Some 1%nat) /\
  exists b', rows (brands (Category_delete 1 store_with_brands)) !! 1%nat = Some b' /\
    Brand_name b' = "sa" /\ Brand_category b' = None.
Proof.
  split; [reflexivity|].
  destruct (Category_delete_sets_null store_with_brands 1) as (_ & _ & Hkept & _).
  destruct (Hkept 1%nat _ eq_refl) as (b' & Hb' & Hname & Hcat).
  exists b'. split; [exact Hb'|]. split; [exact Hname | exact Hcat].
Defined.

(** X13: deleting a brand deletes no product and no review.  Every product
    keeps its key, title, description and image; the products of the
    deleted brand have their brand emptied, the others keep theirs; the
    reviews are untouched, so every product keeps its number of reviews and
    its score. *)
Theorem Brand_delete_sets_null (db : Store) (pk : nat) :
  let db' := Brand_delete pk db in
  rows (brands db') !! pk = None /\
  (forall k p, rows (products db) !! k = Some p ->
     exists p', rows (products db') !! k = Some p' /\
       Product_title p' = Product_title p /\
       Product_description p' = Product_description p /\
       Product_image p' = Product_image p /\
       Product_brand p'
       = if decide (Product_brand p = Some pk) then None else Product_brand p) /\
  (forall k p', rows (products db') !! k = Some p' ->
     is_Some (rows (products db) !! k) /\ Product_brand p' <> Some pk) /\
  reviews db' = reviews db /\
  (forall k, Product.get_count_total_reviews db' k
             = Product.get_count_total_reviews db k) /\
  (forall k, Product.get_review_percentage (F:=float) db' k
             = Product.get_review_percentage db k).
Proof.
  intros db'. subst db'. unfold Brand_delete. simpl.
  assert (Hlook := fun k => set_null_lookup Product.brand Product_brand
                     Product.clear_brand pk (products db) k eq_refl).
  split; [apply lookup_delete_eq|]. split; [|split; [|split; [|split]]].
  - intros k p Hp. rewrite Hlook, Hp. simpl. eexists. split; [reflexivity|].
    case_decide; repeat split; reflexivity.
  - intros k p'. rewrite Hlook. intros Hp.
    apply fmap_Some in Hp as (p & Hp & ->). split; [eauto|].
    case_decide; [discriminate|assumption].
  - reflexivity.
  - reflexivity.
  - reflexivity.
Qed.

Lemma Brand_delete_sets_null_witness :
  Product_brand <$> rows (products store_with_brands) !! 1%nat = Some (Some 1%nat) /\
  (exists p', rows (products (Brand_delete 1 store_with_brands)) !! 1%nat = Some p' /\
     Product_title p' = "galaxy" /\ Product_brand p' = None) /\
  Product.get_count_total_reviews (Brand_delete 1 store_with_brands) 1 = 1.
Proof.
  split; [reflexivity|].
  destruct (Brand_delete_sets_null store_with_brands 1)
    as (_ & Hkept & _ & _ & Hcount & _).
  destruct (Hkept 1%nat _ eq_refl) as (p' & Hp' & Htitle & _ & _ & Hbrand).
  split; [exists p'; auto|]. rewrite Hcount. reflexivity.
Defined.

(** X14: in every store the program can reach, the category of a brand and
    the brand of a product are each empty or the key of a stored row:
    saving refuses a reference to a missing row, and deleting empties the
    references to the deleted row. *)
Theorem reachable_references_resolve (db : Store) :
  reachable db ->
  (forall k b c, rows (brands db) !! k = Some b -> Brand_category b = Some c ->
     is_Some (rows (categories db) !! c)) /\
  (forall k p b, rows (products db) !! k = Some p -> Product_brand p = Some b ->
     is_Some (rows (brands db) !! b)).
Proof.
  intros Hreach. destruct (reachable_wf db Hreach) as [Hb Hp _].
  split; [exact Hb | exact Hp].
Qed.

Lemma reachable_references_resolve_witness :
  Product_brand <$> rows (products (Category_delete 1 store_with_brands)) !! 1%nat
  = Some (Some 1%nat) /\
  is_Some (rows (brands (Category_delete 1 store_with_brands)) !! 1%nat).
Proof.
  split; [reflexivity|].
  assert (Hreach : reachable (Category_delete 1 store_with_brands)).
  { apply (reachable_run (CategoryDelete 1)), run_all_reachable. constructor. }
  destruct (reachable_references_resolve _ Hreach) as [_ Hproducts].
  apply (Hproducts 1%nat _ 1%nat eq_refl eq_refl).
Defined.

(** ** Labels and choices *)

Lemma scan_choices_is_label name items :
  scan_choices name items = "Unknown" \/
  In (name, scan_choices name items) (map snd items).
Proof.
  induction items as [|[count [code lab]] rest IH]; simpl; [auto|].
  destruct (String.eqb_spec name code) as [->|Hne]; [auto|].
  destruct IH; auto.
Qed.

Lemma is_choice_In name choices :
  is_choice name choices = true <-> exists label, In (name, label) choices.
Proof.
  unfold is_choice. rewrite existsb_exists. split.
  - intros [[code label] [Hin Heq]]. apply String.eqb_eq in Heq. simpl in Heq.
    subst code. eauto.
  - intros [label Hin]. exists (name, label). split; [exact Hin|].
    apply String.eqb_refl.
Qed.

Lemma CATEGORIES_ok : table_ok Category.CATEGORIES.
Proof.
  repeat split; apply (bool_decide_unpack _); vm_compute; reflexivity.
Qed.

Lemma BRANDS_ok : table_ok Brand.BRANDS.
Proof.
  repeat split; apply (bool_decide_unpack _); vm_compute; reflexivity.
Qed.

Lemma NoDup_codes_enumerate choices :
  table_ok choices ->
  NoDup (map (fun it => fst (snd it)) (enumerate choices)).
Proof.
  intros [Hcodes _].
  rewrite <- (map_map snd fst), enumerate_items. exact Hcodes.
Qed.

Lemma str_unknown_iff choices name :
  table_ok choices ->
  scan_choices name (enumerate choices) = "Unknown"
  <-> is_choice name choices = false.
Proof.
  intros Hok. split.
  - intros Hunk. destruct (is_choice name choices) eqn:E; [|reflexivity].
    apply is_choice_In in E as [label Hin].
    rewrite (scan_choices_found name label) in Hunk;
      [|apply NoDup_codes_enumerate; exact Hok
       |rewrite enumerate_items; exact Hin].
    subst label. destruct Hok as (_ & _ & Hno). exfalso. apply Hno.
    apply in_map_iff. exists (name, "Unknown"). auto.
  - intros Hno. apply scan_choices_unknown. rewrite enumerate_items.
    intros code label Hin ->.
    assert (is_choice code choices = true) by (apply is_choice_In; eauto).
    congruence.
Qed.

Lemma distinct_labels_injective (choices : list (string * string)) name name' label :
  NoDup (map snd choices) ->
  In (name, label) choices -> In (name', label) choices -> name = name'.
Proof.
  induction choices as [|[c l] rest IH]; simpl; [contradiction|].
  intros Hlabels Hin Hin'.
  apply NoDup_cons in Hlabels as [Hfresh Hlabels].
  assert (Hmem : forall n, In (n, l) rest -> False).
  { intros n Hn. apply Hfresh. apply list_elem_of_In.
    apply in_map_iff. exists (n, l). auto. }
  destruct Hin as [Hin|Hin], Hin' as [Hin'|Hin'].
  - congruence.
  - injection Hin as -> ->. exfalso. eauto.
  - injection Hin' as -> ->. exfalso. eauto.
  - apply IH; assumption.
Qed.

Lemma str_injective choices name name' :
  table_ok choices ->
  scan_choices name (enumerate choices) = scan_choices name' (enumerate choices) ->
  scan_choices name (enumerate choices) <> "Unknown" -> name = name'.
Proof.
  intros (_ & Hlabels & _) Heq Hknown.
  destruct (scan_choices_is_label name (enumerate choices)) as [?|Hin];
    [contradiction|].
  destruct (scan_choices_is_label name' (enumerate choices)) as [Hunk|Hin'];
    [congruence|].
  rewrite enumerate_items in Hin, Hin'. rewrite <- Heq in Hin'.
  eapply distinct_labels_injective; eassumption.
Qed.

(** X15: the label identifies the code.  For categories and for brands,
    [__str__] returns ['Unknown'] exactly when the stored name is the code
    of no choice, and two instances that show the same label other than
    ['Unknown'] store the same name. *)
Theorem label_identifies_code (c c' : Category) (b b' : Brand) :
  (Category.__str__ c = "Unknown"
   <-> ~ In (Category_name c) (map fst Category.CATEGORIES)) /\
  (Category.__str__ c = Category.__str__ c' ->
   Category.__str__ c <> "Unknown" -> Category_name c = Category_name c') /\
  (Brand.__str__ b = "Unknown" <-> ~ In (Brand_name b) (map fst Brand.BRANDS)) /\
  (Brand.__str__ b = Brand.__str__ b' ->
   Brand.__str__ b <> "Unknown" -> Brand_name b = Brand_name b').
Proof.
  assert (Hin : forall name choices,
    is_choice name choices = false <-> ~ In name (map fst choices)).
  { intros name choices. rewrite <- not_true_iff_false, is_choice_In.
    rewrite in_map_iff. split; intros Hno.
    - intros [[code label] [Heq Hin]]. simpl in Heq. subst code. eauto.
    - intros [label Hin]. apply Hno. exists (name, label). auto. }
  unfold Category.__str__, Brand.__str__.
  split; [|split; [|split]].
  - rewrite (str_unknown_iff _ _ CATEGORIES_ok). apply Hin.
  - apply (str_injective _ _ _ CATEGORIES_ok).
  - rewrite (str_unknown_iff _ _ BRANDS_ok). apply Hin.
  - apply (str_injective _ _ _ BRANDS_ok).
Qed.

Lemma label_identifies_code_witness :
  Category.__str__ {| Category_name := "PH" |} = "Unknown" /\
  Brand.__str__ {| Brand_category := None; Brand_name := "samsung" |} = "Unknown".
Proof.
  destruct (label_identifies_code {| Category_name := "PH" |}
              {| Category_name := "ph" |}
              {| Brand_category := None; Brand_name := "samsung" |}
              {| Brand_category := None; Brand_name := "sa" |})
    as (Hc & _ & Hb & _).
  split; [apply Hc | apply Hb]; cbv; intuition discriminate.
Defined.

(** X16: validation and display agree.  [full_clean] accepts a category
    exactly when [__str__] shows a label for it, and refuses it with
    [ValidationError] exactly when [__str__] shows ['Unknown'];
    [full_clean] accepts a brand exactly when [__str__] shows a label for
    it and its category is set and stored.  What [full_clean] accepts is
    never displayed as ['Unknown']. *)
Theorem full_clean_accepts_labelled (db : Store) (c : Category) (b : Brand) :
  (Category_full_clean c = Return tt <-> Category.__str__ c <> "Unknown") /\
  (Category_full_clean c = Raise ValidationError
   <-> Category.__str__ c = "Unknown") /\
  (Brand_full_clean db b = Return tt
   <-> Brand.__str__ b <> "Unknown" /\
       exists k, Brand_category b = Some k /\
                 is_Some (rows (categories db) !! k)) /\
  (Brand_full_clean db b = Raise ValidationError
   <-> Brand.__str__ b = "Unknown" \/ Brand_category b = None \/
       exists k, Brand_category b = Some k /\ rows (categories db) !! k = None).
Proof.
  unfold Category_full_clean, Brand_full_clean, Category.__str__, Brand.__str__.
  rewrite (str_unknown_iff _ _ CATEGORIES_ok), (str_unknown_iff _ _ BRANDS_ok).
  split; [|split; [|split]].
  - destruct (is_choice (Category_name c) Category.CATEGORIES);
      split; intros; congruence.
  - destruct (is_choice (Category_name c) Category.CATEGORIES);
      split; intros; congruence.
  - destruct (Brand_category b) as [k|];
      [|split; [discriminate | intros [_ (k & Hk & _)]; discriminate]].
    case_bool_decide as Hk;
      destruct (is_choice (Brand_name b) Brand.BRANDS); simpl; split;
      try discriminate; try reflexivity.
    + intros _. split; [discriminate | eauto].
    + intros [Hne _]. congruence.
    + intros [_ (k' & [= <-] & Hsome)]. contradiction.
    + intros [Hne _]. congruence.
  - destruct (Brand_category b) as [k|]; [|split; auto].
    case_bool_decide as Hk;
      destruct (is_choice (Brand_name b) Brand.BRANDS); simpl; split;
      auto; try discriminate.
    + intros [?|[?|(k' & [= <-] & Hnone)]]; try congruence.
      rewrite Hnone in Hk. destruct Hk; discriminate.
    + intros _. right. right. exists k. split; [reflexivity|].
      apply eq_None_not_Some. exact Hk.
Qed.

Lemma full_clean_accepts_labelled_witness :
  Category_full_clean {| Category_name := "xz" |} = Raise ValidationError /\
  Brand_full_clean store_with_brands
    {| Brand_category := Some 1%nat; Brand_name := "de" |} = Return tt /\
  Brand_full_clean store_with_brands
    {| Brand_category := None; Brand_name := "de" |} = Raise ValidationError.
Proof.
  destruct (full_clean_accepts_labelled store_with_brands
              {| Category_name := "xz" |}
              {| Brand_category := Some 1%nat; Brand_name := "de" |})
    as (_ & Hc & Hb & _).
  destruct (full_clean_accepts_labelled store_with_brands
              {| Category_name := "xz" |}
              {| Brand_category := None; Brand_name := "de" |})
    as (_ & _ & _ & Hnone).
  split; [apply Hc; reflexivity|]. split.
  - apply Hb. split; [vm_compute; discriminate|].
    exists 1%nat. split; [reflexivity | eexists; reflexivity].
  - apply Hnone. right. left. reflexivity.
Defined.

(** ** The display string of a product, again *)

Lemma case_char_absorb (c : ascii) :
  upper_char (upper_char c) = upper_char c /\
  lower_char (lower_char c) = lower_char c.
Proof. destruct c as [[] [] [] [] [] [] [] []]; vm_compute; auto. Qed.

Lemma case_char_ascii (c : ascii) :
  is_ascii_char c = true ->
  upper_char (lower_char c) = upper_char c /\
  is_ascii_char (upper_char c) = true /\ is_ascii_char (lower_char c) = true.
Proof.
  destruct c as [[] [] [] [] [] [] [] []]; vm_compute; intros H;
    first [discriminate H | auto].
Qed.

Lemma lower_lower s : lower (lower s) = lower s.
Proof.
  induction s as [|c s IH]; simpl; [reflexivity|].
  rewrite IH. f_equal. apply case_char_absorb.
Qed.

Lemma lower_is_ascii s : is_ascii s = true -> is_ascii (lower s) = true.
Proof.
  induction s as [|c s IH]; simpl; [reflexivity|].
  intros [Hc Hs]%andb_prop. rewrite IH by exact Hs.
  destruct (case_char_ascii c Hc) as (_ & _ & ->). reflexivity.
Qed.

Lemma spec_capitalize_is_ascii s :
  is_ascii s = true -> is_ascii (spec_capitalize s) = true.
Proof.
  destruct s as [|c s]; simpl; [reflexivity|].
  intros [Hc Hs]%andb_prop. rewrite lower_is_ascii by exact Hs.
  destruct (case_char_ascii c Hc) as (_ & -> & _). reflexivity.
Qed.

Lemma spec_capitalize_lower s :
  is_ascii s = true -> spec_capitalize (lower s) = spec_capitalize s.
Proof.
  destruct s as [|c s]; simpl; [reflexivity|].
  intros [Hc _]%andb_prop. rewrite lower_lower. f_equal.
  apply (case_char_ascii c Hc).
Qed.

Lemma spec_capitalize_twice s :
  spec_capitalize (spec_capitalize s) = spec_capitalize s.
Proof.
  destruct s as [|c s]; simpl; [reflexivity|].
  rewrite lower_lower. f_equal. apply case_char_absorb.
Qed.

Lemma substring_prefix_lower n s :
  substring 0 n (lower s) = lower (substring 0 n s).
Proof.
  revert s; induction n as [|n IH]; intros [|c s]; simpl; try reflexivity.
  rewrite IH. reflexivity.
Qed.

Lemma substring_prefix_spec_capitalize n s :
  substring 0 n (spec_capitalize s) = spec_capitalize (substring 0 n s).
Proof.
  destruct n as [|n], s as [|c s]; simpl; try reflexivity.
  rewrite substring_prefix_lower. reflexivity.
Qed.

Lemma substring_prefix_twice n s :
  substring 0 n (substring 0 n s) = substring 0 n s.
Proof.
  revert s; induction n as [|n IH]; intros [|c s]; simpl; try reflexivity.
  rewrite IH. reflexivity.
Qed.

Lemma substring_prefix_short n s :
  (String.length s <= n)%nat -> substring 0 n s = s.
Proof.
  revert s; induction n as [|n IH]; intros [|c s]; simpl; intros Hlen;
    try reflexivity; try lia.
  rewrite IH by lia. reflexivity.
Qed.

(** X17: on ASCII titles the display string of a product is stable.  For
    two products whose titles have only ASCII characters among their first
    20: the display string of the first is itself a text which, taken as
    the title, is displayed unchanged; if the two titles differ in letter
    case only, they are displayed alike; and a title of at most 20
    characters is displayed whole, capitalized. *)
Theorem Product_str_stable (p p' : Product) :
  let t := substring 0 20 (Product_title p) in
  let t' := substring 0 20 (Product_title p') in
  is_ascii t = true ->
  is_ascii t' = true ->
  (code_points (spec_capitalize t) = Product.__str__ p /\
   Product.__str__ (Product_with_title (spec_capitalize t) p)
   = Product.__str__ p) /\
  (lower (Product_title p) = lower (Product_title p') ->
   Product.__str__ p = Product.__str__ p') /\
  ((String.length (Product_title p) <= 20)%nat ->
   Product.__str__ p = capitalize (Product_title p)).
Proof.
  intros t t' Ht Ht'. unfold Product.__str__. simpl. fold t t'.
  rewrite (capitalize_ascii t Ht), (capitalize_ascii t' Ht').
  split; [split; [reflexivity|] | split].
  - rewrite substring_prefix_spec_capitalize. unfold t at 1.
    rewrite substring_prefix_twice. fold t.
    rewrite capitalize_ascii by (apply spec_capitalize_is_ascii; exact Ht).
    rewrite spec_capitalize_twice. reflexivity.
  - intros Hlower.
    rewrite <- (spec_capitalize_lower t Ht), <- (spec_capitalize_lower t' Ht').
    unfold t, t'. rewrite <- !substring_prefix_lower, Hlower. reflexivity.
  - intros Hshort. rewrite <- (capitalize_ascii t Ht). unfold t.
    rewrite substring_prefix_short by exact Hshort. reflexivity.
Qed.

Lemma Product_str_stable_witness :
  Product.__str__ a_long_title
  = Product.__str__ (Product_with_title "TITLE title TITLE...EXTRA" a_long_title) /\
  Product.__str__ (Product_with_title "Title title title..." a_long_title)
  = Product.__str__ a_long_title /\
  Product.__str__ a_product = code_points "Test".
Proof.
  destruct (Product_str_stable a_long_title
              (Product_with_title "TITLE title TITLE...EXTRA" a_long_title)
              eq_refl eq_refl)
    as ((_ & Hagain) & Hcase & _).
  destruct (Product_str_stable a_product a_product eq_refl eq_refl)
    as (_ & _ & Hshort).
  split; [apply Hcase; reflexivity|]. split; [exact Hagain|].
  rewrite Hshort by (vm_compute; lia). reflexivity.
Defined.
